(** * Document fraud detection: format fingerprinting and metadata analysis

    A shallow embedding of [Document_Format_Validation.py] (signature
    extraction, training, validation) and of [analyze_pdf] from
    [Document_MetaData_Analysis.py], with the properties of the written
    specification stated and settled against it, followed by further
    properties of the two scripts.

    Conventions of the embedding:
    - a Python [str] is held as the [string] of its UTF-8 bytes;
    - a Python [int] is a [Z];
    - a Python [float] is a binary64 value of the Standard Library's
      [SpecFloat], every operation rounding to nearest, ties to even;
    - a [Counter] is a finite map from keys to integer counts;
    - [st.session_state] is threaded explicitly, and an exception leaves
      the session as it was mutated up to the raise;
    - where it matters that a run builds its result in objects of its
      own, the extractors are also given on the objects of the
      interpreter (module [Objects]): the Counter and the list of a run
      live at addresses and are mutated in place;
    - an uploaded file is what [fitz.open] makes of it (an exception, or
      its pages); the temporary copy, the widgets of the page and the
      drawing of the annotated copy are left out. *)

From Stdlib Require Import ZArith String Ascii List SpecFloat Lia.
From Stdlib Require PrimFloat FloatOps Uint63.
From stdpp Require Import gmap strings list fin_maps fin_sets pretty.

#[local] Open Scope Z_scope.

(** ** The Python runtime used by the scripts *)
Module Py.

(** *** Strings *)

Definition byte_of (c : ascii) : N := N_of_ascii c.

(** [str.isspace] on a code point of one byte: TAB..CR, FS..US and SPACE. *)
Definition is_space1 (c : ascii) : bool :=
  let n := byte_of c in
  ((9 <=? n) && (n <=? 13) || (28 <=? n) && (n <=? 32))%N.

(** U+0085 and U+00A0, encoded [C2 85] and [C2 A0]. *)
Definition is_space2 (c1 c2 : ascii) : bool :=
  ((byte_of c1 =? 194) && ((byte_of c2 =? 133) || (byte_of c2 =? 160)))%N.

(** U+1680 [E1 9A 80]; U+2000..U+200A, U+2028, U+2029, U+202F
    [E2 80 80..8A/A8/A9/AF]; U+205F [E2 81 9F]; U+3000 [E3 80 80]. *)
Definition is_space3 (c1 c2 c3 : ascii) : bool :=
  let '(a, b, c) := (byte_of c1, byte_of c2, byte_of c3) in
  ((a =? 225) && (b =? 154) && (c =? 128)
   || (a =? 226) && (b =? 128)
      && ((128 <=? c) && (c <=? 138) || (c =? 168) || (c =? 169) || (c =? 175))
   || (a =? 226) && (b =? 129) && (c =? 159)
   || (a =? 227) && (b =? 128) && (c =? 128))%N.

(** Drops the whitespace characters at the front. With [back] the bytes
    arrive last-to-first, as when a reversed string is scanned. *)
Fixpoint strip_front (back : bool) (s : string) : string :=
  match s with
  | String c1 r1 =>
      if is_space1 c1 then strip_front back r1 else
      match r1 with
      | String c2 r2 =>
          if (if back then is_space2 c2 c1 else is_space2 c1 c2)
          then strip_front back r2 else
          match r2 with
          | String c3 r3 =>
              if (if back then is_space3 c3 c2 c1 else is_space3 c1 c2 c3)
              then strip_front back r3 else s
          | EmptyString => s
          end
      | EmptyString => s
      end
  | EmptyString => s
  end.

(** [s.strip()] *)
Definition strip (s : string) : string :=
  String.rev (strip_front true (String.rev (strip_front false s))).

(** [not s] on a string. *)
Definition str_is_empty (s : string) : bool :=
  match s with EmptyString => true | _ => false end.

(** [s.lower()] on the ASCII letters, which is all of it on ASCII text. *)
Definition lower_char (c : ascii) : ascii :=
  let n := byte_of c in
  if ((65 <=? n) && (n <=? 90))%N then ascii_of_N (n + 32) else c.

Fixpoint lower (s : string) : string :=
  match s with
  | EmptyString => EmptyString
  | String c r => String (lower_char c) (lower r)
  end.

(** [needle in hay] *)
Fixpoint contains (needle hay : string) : bool :=
  String.prefix needle hay ||
  match hay with
  | EmptyString => false
  | String _ r => contains needle r
  end.

(** [sep.join(parts)] *)
Fixpoint join (sep : string) (parts : list string) : string :=
  match parts with
  | [] => ""
  | [p] => p
  | p :: rest => p +:+ sep +:+ join sep rest
  end.

(** *** Integers *)

(** [str(z)], also what an f-string field [{z}] prints. *)
Definition str_int (z : Z) : string := pretty z.

Definition hex_digit (d : Z) : ascii :=
  ascii_of_N (Z.to_N (if d <? 10 then 48 + d else 55 + d)).

(** [f"{v:02X}"] for [0 <= v < 256]. *)
Definition format_02X (v : Z) : string :=
  String (hex_digit (v / 16)) (String (hex_digit (v mod 16)) EmptyString).

(** *** Floats: binary64 *)

Definition prec : Z := 53.
Definition emax : Z := 1024.
Abbreviation float := spec_float.

(** An integer as an exact, not normalised, operand of a division. *)
Definition exact_int (z : Z) : float :=
  match z with
  | Z0 => S754_zero false
  | Zpos p => S754_finite false p 0
  | Zneg p => S754_finite true p 0
  end.

(** [a / b] on two [int]s: the correctly rounded quotient. The divisor is
    not zero at the call sites. *)
Definition int_truediv (a b : Z) : float :=
  SFdiv prec emax (exact_int a) (exact_int b).

(** [float(z)], the conversion an [int] operand of a float operation gets. *)
Definition float_of_int (z : Z) : float := binary_normalize prec emax z 0 false.

(** [x * y] on floats. *)
Definition float_mul (x y : float) : float := SFmul prec emax x y.

(** [x <= y] on floats. *)
Definition float_le (x y : float) : bool := SFleb x y.

(** The integer nearest to [num / den], ties to even ([0 <= num], [0 < den]). *)
Definition div_half_even (num den : Z) : Z :=
  let (q, r) := Z.div_eucl num den in
  match 2 * r ?= den with
  | Lt => q
  | Gt => q + 1
  | Eq => if Z.even q then q else q + 1
  end.

(** The integer nearest to [m * 2^e * k], ties to even. *)
Definition scaled_half_even (m : positive) (e : Z) (k : Z) : Z :=
  match e with
  | Zneg p => div_half_even (Zpos m * k) (2 ^ Zpos p)
  | _ => Zpos m * k * 2 ^ e
  end.

(** [round(x, ndigits)] for [0 <= ndigits]: the exact binary value is
    rounded half-even to [ndigits] decimals, and the decimal obtained is
    read back as the nearest float. *)
Definition float_round (x : float) (ndigits : Z) : float :=
  match x with
  | S754_finite s m e =>
      let n := scaled_half_even m e (10 ^ ndigits) in
      match n with
      | Z0 => S754_zero s
      | _ => int_truediv (if s then - n else n) (10 ^ ndigits)
      end
  | _ => x
  end.

(** *** [repr] of a float: the shortest digits that read back as it *)

Definition pow2 (z : Z) : Z := 2 ^ Z.max z 0.
Definition pow10 (z : Z) : Z := 10 ^ Z.max z 0.

(** Compares [d * 10^p] with [x * 2^s]. *)
Definition cmp_dec_bin (d p x s : Z) : comparison :=
  d * pow10 p * pow2 (- s) ?= x * pow2 s * pow10 (- p).

(** The [g] with [10^g <= m * 2^e < 10^(g+1)]. *)
Definition floor_log10 (m : positive) (e : Z) : Z :=
  let l := Zpos (digits2_pos m) + e in
  let g := (l - 1) * 30103 / 100000 in
  let g := match cmp_dec_bin 1 g (Zpos m) e with Gt => g - 1 | _ => g end in
  let g := match cmp_dec_bin 1 g (Zpos m) e with Gt => g - 1 | _ => g end in
  let g := match cmp_dec_bin 1 (g + 1) (Zpos m) e with Gt => g | _ => g + 1 end in
  match cmp_dec_bin 1 (g + 1) (Zpos m) e with Gt => g | _ => g + 1 end.

(** Whether [d * 10^p] reads back as [m * 2^e]: it lies between the two
    midpoints to the neighbouring floats, which belong to an even [m]. *)
Definition in_interval (m : positive) (e : Z) (d p : Z) : bool :=
  let x := 4 * Zpos m in
  let lo := if Pos.eqb m (2 ^ 52)%positive && (-1074 <? e) then x - 1 else x - 2 in
  let hi := x + 2 in
  let incl := Z.even (Zpos m) in
  let lo_ok :=
    match cmp_dec_bin d p lo (e - 2) with Gt => true | Eq => incl | Lt => false end in
  let hi_ok :=
    match cmp_dec_bin d p hi (e - 2) with Lt => true | Eq => incl | Gt => false end in
  lo_ok && hi_ok.

(** The [k]-digit decimal nearest to [m * 2^e] that reads back as it. *)
Definition shortest_at (m : positive) (e : Z) (lg : Z) (k : Z) : option (Z * Z) :=
  let p := lg - k + 1 in
  let d0 := (Zpos m * pow2 e * pow10 (- p)) / (pow2 (- e) * pow10 p) in
  let d1 := d0 + 1 in
  match in_interval m e d0 p, in_interval m e d1 p with
  | true, true =>
      match cmp_dec_bin (2 * d0 + 1) p (2 * Zpos m) e with
      | Gt => Some (d0, p)
      | Lt => Some (d1, p)
      | Eq => Some (if Z.even d0 then d0 else d1, p)
      end
  | true, false => Some (d0, p)
  | false, true => Some (d1, p)
  | false, false => None
  end.

Fixpoint shortest_from (m : positive) (e : Z) (lg : Z) (k : Z) (fuel : nat) : Z * Z :=
  match fuel with
  | O => (Zpos m * pow2 e * pow10 (k - 1 - lg), lg - k + 1)
  | S fuel' =>
      match shortest_at m e lg k with
      | Some r => r
      | None => shortest_from m e lg (k + 1) fuel'
      end
  end.

Fixpoint strip_zeros (d p : Z) (fuel : nat) : Z * Z :=
  match fuel with
  | O => (d, p)
  | S fuel' =>
      if (d mod 10 =? 0) && negb (d =? 0)
      then strip_zeros (d / 10) (p + 1) fuel' else (d, p)
  end.

(** The digits and the position of the decimal point after how many of
    them; seventeen digits always suffice for a binary64. *)
Definition shortest_digits (m : positive) (e : Z) : string * Z :=
  let lg := floor_log10 m e in
  let '(d, p) := shortest_from m e lg 1 17 in
  let '(d, p) := strip_zeros d p 20 in
  let ds : string := pretty d in
  (ds, p + Z.of_nat (String.length ds)).

Fixpoint zeros (n : nat) : string :=
  match n with O => "" | S n' => String "0" (zeros n') end.

(** The layout of [repr]: exponent form below [1e-4] and from [1e16] on. *)
Definition format_repr (ds : string) (decpt : Z) : string :=
  if (decpt <=? -4) || (16 <? decpt) then
    let ex := decpt - 1 in
    let mant :=
      match ds with
      | String c EmptyString => String c EmptyString
      | String c rest => String c ("." +:+ rest)
      | EmptyString => "0"
      end in
    mant +:+ "e" +:+ (if ex <? 0 then "-" else "+")
         +:+ (if Z.abs ex <? 10 then "0" else "") +:+ pretty (Z.abs ex)
  else if decpt <=? 0 then
    "0." +:+ zeros (Z.to_nat (- decpt)) +:+ ds
  else
    let n := Z.to_nat decpt in
    let len := String.length ds in
    if (len <=? n)%nat then ds +:+ zeros (n - len) +:+ ".0"
    else substring 0 n ds +:+ "." +:+ substring n (len - n) ds.

(** [repr(x)], which is also [str(x)] and what [f"{x}"] prints. *)
Definition float_repr (x : float) : string :=
  match x with
  | S754_nan => "nan"
  | S754_infinity false => "inf"
  | S754_infinity true => "-inf"
  | S754_zero false => "0.0"
  | S754_zero true => "-0.0"
  | S754_finite s m e =>
      let '(ds, decpt) := shortest_digits m e in
      (if s then "-" else "") +:+ format_repr ds decpt
  end.

(** *** Numbers as a dynamically typed value: an [int] or a [float] *)

Inductive num : Type :=
  | NInt (z : Z)
  | NFloat (x : float).

Definition str_num (n : num) : string :=
  match n with
  | NInt z => str_int z
  | NFloat x => float_repr x
  end.

(** [round(n, ndigits)]: an [int] stays the [int] it is. *)
Definition round_num (n : num) (ndigits : Z) : num :=
  match n with
  | NInt z => NInt z
  | NFloat x => NFloat (float_round x ndigits)
  end.

(** [a <= b]: two [int]s are compared as integers; with a float, the
    [int] is read as the float it converts to, which is exact up to 53
    bits. *)
Definition as_float (n : num) : float :=
  match n with
  | NInt z => float_of_int z
  | NFloat x => x
  end.

Definition num_le (a b : num) : bool :=
  match a, b with
  | NInt x, NInt y => x <=? y
  | _, _ => float_le (as_float a) (as_float b)
  end.

(** *** Exceptions *)

(** A raised exception: its class and its message, [str(e)]. *)
Record exn : Type := Exn { exn_class : string; exn_message : string }.

(** *** [collections.Counter] with string keys *)

Abbreviation Counter := (gmap string Z).

(** [c[k]]: a missing key counts zero. *)
Definition Counter_get (c : Counter) (k : string) : Z := default 0 (c !! k).

(** [c[k] += 1] *)
Definition Counter_incr (c : Counter) (k : string) : Counter :=
  <[k := Counter_get c k + 1]> c.

Definition keep_positive (z : Z) : option Z := if 0 <? z then Some z else None.

(** [c1 + c2]: counts are added and only the positive ones are kept. *)
Definition Counter_add (c1 c2 : Counter) : Counter :=
  merge (fun a b =>
           match a, b with
           | Some x, Some y => keep_positive (x + y)
           | Some x, None => keep_positive x
           | None, Some y => keep_positive y
           | None, None => None
           end) c1 c2.

(** [c.update(other)]: counts are added in place, whatever their sign. *)
Definition Counter_update (c other : Counter) : Counter :=
  union_with (fun x y => Some (x + y)) c other.

(** [bool(c)]: a Counter is true when it has a key. *)
Definition Counter_bool (c : Counter) : bool := negb (bool_decide (c = ∅)).

(** [set(c.keys())] *)
Definition Counter_keys (c : Counter) : gset string := dom c.

(** [sum(c.values())] *)
Definition Counter_total (c : Counter) : Z :=
  map_fold (fun _ v acc => acc + v) 0 c.

End Py.

(** ** [Document_Format_Validation.py] *)
Module FormatValidation.
Import Py.

(** *** What the PDF library hands over *)

(** A value of either kind where the script mixes them: the default of an
    absent integer field can be a string. *)
Inductive value : Type :=
  | VStr (s : string)
  | VNum (n : num).

(** How an f-string field prints it. *)
Definition format_value (v : value) : string :=
  match v with
  | VStr s => s
  | VNum n => str_num n
  end.

(** A span of [page.get_text("dict")]; [None] is an absent key. *)
Record span : Type := Span {
  span_text : option string;
  span_font : option string;
  span_size : option num;
  span_color : option Z;
  span_flags : option Z;
  span_ascender : option num;
  span_descender : option num;
  span_bbox : option (list num)
}.

Record line : Type := Line { line_spans : option (list span) }.

Record block : Type := Block { block_lines : option (list line) }.

(** What [doc.extract_image(xref)] returns for an entry of
    [page.get_images(full=True)]. *)
Record base_image : Type := BaseImage {
  img_width : option Z;
  img_height : option Z;
  img_ext : option string;
  img_colorspace : option Z;
  img_bpc : option Z;
  img_image : option (list Byte.byte)
}.

(** A page: the blocks of its text dictionary, and one extracted image per
    entry of its image list, in the order of the list. *)
Record page : Type := Page {
  page_blocks : list block;
  page_images : list base_image
}.

(** A file as [fitz.open] sees it: it raises, or it yields the pages. *)
Inductive pdf_file : Type :=
  | Unreadable (e : exn)
  | Readable (pages : list page).

Definition fitz_open (f : pdf_file) : exn + list page :=
  match f with
  | Unreadable e => inl e
  | Readable pages => inr pages
  end.

(** [enumerate(xs)] *)
Fixpoint enumerate_from {X : Type} (i : Z) (xs : list X) : list (Z * X) :=
  match xs with
  | [] => []
  | x :: rest => (i, x) :: enumerate_from (i + 1) rest
  end.

Definition enumerate {X : Type} (xs : list X) : list (Z * X) := enumerate_from 0 xs.

(** *** Utilities of the script *)

Definition int_to_hex (color_int : Z) : string :=
  let r := Z.land (Z.shiftr color_int 16) 255 in
  let g := Z.land (Z.shiftr color_int 8) 255 in
  let b := Z.land color_int 255 in
  "#" +:+ format_02X r +:+ format_02X g +:+ format_02X b.

(** An entry of [detailed_chars]. *)
Record detail : Type := Detail {
  d_text : string;
  d_page : Z;
  d_un_com : string;
  d_color : string;
  d_bbox : list num
}.

(** The signature key of a span, as the loop body builds it. *)
Definition span_un_com (sp : span) : string :=
  let font := default "Unknown" (span_font sp) in
  let size := round_num (default (NInt 0) (span_size sp)) 1 in
  let color := default 0 (span_color sp) in
  let color_hex := int_to_hex color in
  let flags := default (VStr "") (VNum ∘ NInt <$> span_flags sp) in
  let ascender := default (NInt 0) (span_ascender sp) in
  let descender := default (NInt 0) (span_descender sp) in
  str_num size +:+ "_" +:+ format_value flags +:+ "_" +:+ font +:+ "_"
    +:+ color_hex +:+ "_" +:+ str_num ascender +:+ "_" +:+ str_num descender.

(** The body of the innermost loop on the two accumulators. *)
Definition span_step (page_num : Z) (acc : Counter * list detail) (sp : span)
  : Counter * list detail :=
  let '(combos, detailed_chars) := acc in
  let text := strip (default "" (span_text sp)) in
  if str_is_empty text then acc
  else
    let un_com := span_un_com sp in
    (Counter_incr combos un_com,
     detailed_chars ++ [ {| d_text := text;
                            d_page := page_num;
                            d_un_com := un_com;
                            d_color := int_to_hex (default 0 (span_color sp));
                            d_bbox := default [] (span_bbox sp) |} ]).

Definition line_step (page_num : Z) (acc : Counter * list detail) (l : line) :=
  fold_left (span_step page_num) (default [] (line_spans l)) acc.

Definition block_step (page_num : Z) (acc : Counter * list detail) (b : block) :=
  fold_left (line_step page_num) (default [] (block_lines b)) acc.

Definition page_step (acc : Counter * list detail) (ip : Z * page) :=
  fold_left (block_step (fst ip)) (page_blocks (snd ip)) acc.

Definition extract_formatting_combos (pdf_path : pdf_file)
  : exn + (Counter * list detail) :=
  match fitz_open pdf_path with
  | inl e => inl e
  | inr doc => inr (fold_left page_step (enumerate doc) (∅, []))
  end.

(** The signature key of an image. *)
Definition image_un_comb (base : base_image) : string :=
  let width := default 0 (img_width base) in
  let height := default 0 (img_height base) in
  let ext := default "unk" (img_ext base) in
  let cs := default (VStr "unk") (VNum ∘ NInt <$> img_colorspace base) in
  let bpc := default 0 (img_bpc base) in
  let size := Z.of_nat (length (default [] (img_image base))) in
  "IMG_" +:+ str_int width +:+ "_" +:+ str_int height +:+ "_" +:+ ext +:+ "_"
    +:+ format_value cs +:+ "_0_0_" +:+ str_int bpc +:+ "_" +:+ str_int size.

Definition image_step (combos : Counter) (base : base_image) : Counter :=
  Counter_incr combos (image_un_comb base).

Definition image_page_step (combos : Counter) (p : page) : Counter :=
  fold_left image_step (page_images p) combos.

Definition extract_image_combos (pdf_path : pdf_file) : exn + Counter :=
  match fitz_open pdf_path with
  | inl e => inl e
  | inr doc => inr (fold_left image_page_step doc ∅)
  end.

(** *** The session and the two button handlers *)

(** [st.session_state]: the trained Counter, empty when the session starts. *)
Record session : Type := Session { trained_un_combos : Counter }.

Definition initial_session : session := Session ∅.

(** A handler runs on the session; when it raises, the session stays as
    mutated so far. *)
Definition M (A : Type) : Type := session -> (exn + A) * session.

Definition ret {A : Type} (a : A) : M A := fun s => (inr a, s).

Definition bind {A B : Type} (m : M A) (k : A -> M B) : M B :=
  fun s =>
    match m s with
    | (inl e, s') => (inl e, s')
    | (inr a, s') => k a s'
    end.

Definition lift {A : Type} (r : exn + A) : M A := fun s => (r, s).

Definition get_trained : M Counter := fun s => (inr (trained_un_combos s), s).

Definition set_trained (c : Counter) : M unit := fun _ => (inr tt, Session c).

#[local] Notation "x <- m ;; k" := (bind m (fun x => k))
  (at level 100, m at next level, right associativity).
#[local] Notation "m ;;; k" := (bind m (fun _ => k))
  (at level 100, right associativity).

(** [for x in xs: body(x)] *)
Fixpoint for_each {X : Type} (xs : list X) (body : X -> M unit) : M unit :=
  match xs with
  | [] => ret tt
  | x :: rest => body x ;;; for_each rest body
  end.

(** The messages of the page. *)
Inductive ui_message : Type :=
  | Warn_upload_training   (* "Please upload at least one PDF to train." *)
  | Success_trained        (* "Model trained!" *)
  | Warn_train_first       (* "Please train the model first." *)
  | Warn_upload_test.      (* "Please upload a test PDF." *)

(** The body of the training loop for one uploaded file. *)
Definition train_file (file : pdf_file) : M unit :=
  tc <- lift (extract_formatting_combos file) ;;
  image_combos <- lift (extract_image_combos file) ;;
  let combined_combos := Counter_add (fst tc) image_combos in
  trained <- get_trained ;;
  set_trained (Counter_update trained combined_combos).

(** The "Train Model" button. *)
Definition train_handler (train_files : list pdf_file) : M ui_message :=
  match train_files with
  | [] => ret Warn_upload_training
  | _ =>
      set_trained ∅ ;;;
      for_each train_files train_file ;;;
      ret Success_trained
  end.

(** What the "Validate" button computes. *)
Record report : Type := Report {
  unexpected : gset string;
  missing : gset string;
  total_used : Z;
  unexpected_used : Z;
  fraud_score : num;
  suspicious_chars : list detail
}.

Inductive validation : Type :=
  | Refused (w : ui_message)
  | Scored (r : report).

(** [round((unexpected_used / total_used) * 100, 2) if total_used else 0] *)
Definition compute_fraud_score (unexpected_used total_used : Z) : num :=
  if total_used =? 0 then NInt 0
  else NFloat (float_round
                 (float_mul (int_truediv unexpected_used total_used)
                            (float_of_int 100)) 2).

(** [sum(test_combos[c] for c in unexpected)] *)
Definition sum_over (test_combos : Counter) (keys : gset string) : Z :=
  set_fold (fun c acc => acc + Counter_get test_combos c) 0 keys.

(** The scoring of extracted test combos against the trained ones. *)
Definition score (trained test_combos : Counter) (detailed_chars : list detail)
  : report :=
  let trained_set := Counter_keys trained in
  let test_set := Counter_keys test_combos in
  let unexpected := test_set ∖ trained_set in
  let missing := trained_set ∖ test_set in
  let total_used := Counter_total test_combos in
  let unexpected_used := sum_over test_combos unexpected in
  let fraud_score := compute_fraud_score unexpected_used total_used in
  let suspicious_chars :=
    filter (fun c => d_un_com c ∈ unexpected) detailed_chars in
  {| unexpected := unexpected;
     missing := missing;
     total_used := total_used;
     unexpected_used := unexpected_used;
     fraud_score := fraud_score;
     suspicious_chars := suspicious_chars |}.

(** The "Validate Test Document" button. *)
Definition validate_handler (test_file : option pdf_file) : M validation :=
  trained <- get_trained ;;
  if negb (Counter_bool trained) then ret (Refused Warn_train_first)
  else
    match test_file with
    | None => ret (Refused Warn_upload_test)
    | Some f =>
        tc <- lift (extract_formatting_combos f) ;;
        test_image_combos <- lift (extract_image_combos f) ;;
        let test_combos := Counter_add (fst tc) test_image_combos in
        ret (Scored (score trained test_combos (snd tc)))
    end.

End FormatValidation.

(** ** The extractors on the objects of the interpreter *)
Module Objects.
Import Py FormatValidation.

(** An object an extractor creates and then mutates in place. *)
Inductive object : Type :=
  | OCounter (c : Counter)
  | OList (detailed_chars : list detail).

(** What a run goes through: the files, each as [fitz.open] finds it under
    its path, and the objects of the interpreter, by address. *)
Record world : Type := World {
  disk : string -> pdf_file;
  heap : gmap positive object
}.

(** A run reads and changes the world, and may raise. *)
Definition W (A : Type) : Type := world -> (exn + A) * world.

Definition ret {A : Type} (a : A) : W A := fun w => (inr a, w).

Definition bind {A B : Type} (m : W A) (k : A -> W B) : W B :=
  fun w =>
    match m w with
    | (inl e, w') => (inl e, w')
    | (inr a, w') => k a w'
    end.

#[local] Notation "x <- m ;; k" := (bind m (fun x => k))
  (at level 100, m at next level, right associativity).
#[local] Notation "m ;;; k" := (bind m (fun _ => k))
  (at level 100, right associativity).

(** [Counter()] and [[]]: a new object, at an address not in use. *)
Definition alloc (o : object) : W positive :=
  fun w =>
    let l := fresh (dom (heap w)) in
    (inr l, World (disk w) (<[l := o]> (heap w))).

(** [combos[k] += 1] on the Counter at [l]. The name is bound to a
    Counter at both call sites; any other address is a type error. *)
Definition incr_at (l : positive) (k : string) : W unit :=
  fun w =>
    match heap w !! l with
    | Some (OCounter c) =>
        (inr tt, World (disk w) (<[l := OCounter (Counter_incr c k)]> (heap w)))
    | _ => (inl (Exn "TypeError" "not a Counter"), w)
    end.

(** [detailed_chars.append(d)] on the list at [l]. *)
Definition append_at (l : positive) (d : detail) : W unit :=
  fun w =>
    match heap w !! l with
    | Some (OList ds) =>
        (inr tt, World (disk w) (<[l := OList (ds ++ [d])]> (heap w)))
    | _ => (inl (Exn "AttributeError" "not a list"), w)
    end.

(** [fitz.open(pdf_path)] *)
Definition open_path (pdf_path : string) : W (list page) :=
  fun w => (fitz_open (disk w pdf_path), w).

(** [for x in xs: body(x)] *)
Fixpoint for_each {X : Type} (xs : list X) (body : X -> W unit) : W unit :=
  match xs with
  | [] => ret tt
  | x :: rest => body x ;;; for_each rest body
  end.

(** The body of the innermost loop of [extract_formatting_combos]. *)
Definition span_body (combos detailed_chars : positive) (page_num : Z) (sp : span)
  : W unit :=
  let text := strip (default "" (span_text sp)) in
  if str_is_empty text then ret tt
  else
    let un_com := span_un_com sp in
    incr_at combos un_com ;;;
    append_at detailed_chars
      {| d_text := text;
         d_page := page_num;
         d_un_com := un_com;
         d_color := int_to_hex (default 0 (span_color sp));
         d_bbox := default [] (span_bbox sp) |}.

(** The function returns the addresses of the two objects it created. *)
Definition extract_formatting_combos (pdf_path : string) : W (positive * positive) :=
  combos <- alloc (OCounter ∅) ;;
  detailed_chars <- alloc (OList []) ;;
  doc <- open_path pdf_path ;;
  (for_each (enumerate doc) (fun ip =>
     for_each (page_blocks (snd ip)) (fun block =>
       for_each (default [] (block_lines block)) (fun line =>
         for_each (default [] (line_spans line))
           (span_body combos detailed_chars (fst ip)))))) ;;;
  ret (combos, detailed_chars).

Definition extract_image_combos (pdf_path : string) : W positive :=
  combos <- alloc (OCounter ∅) ;;
  doc <- open_path pdf_path ;;
  (for_each doc (fun page =>
     for_each (page_images page) (fun base =>
       incr_at combos (image_un_comb base)))) ;;;
  ret combos.

(** Both extractors on one path, as the handlers call them, and two such
    runs one after the other. *)
Definition extract_both (pdf_path : string) : W (positive * positive * positive) :=
  tc <- extract_formatting_combos pdf_path ;;
  image_combos <- extract_image_combos pdf_path ;;
  ret (fst tc, snd tc, image_combos).

Definition extract_twice (pdf_path : string)
  : W ((positive * positive * positive) * (positive * positive * positive)) :=
  first <- extract_both pdf_path ;;
  second <- extract_both pdf_path ;;
  ret (first, second).

(** What the three objects of a run hold in a world. *)
Definition result_at (w : world) (r : positive * positive * positive)
  : option (Counter * list detail * Counter) :=
  match heap w !! r.1.1, heap w !! r.1.2, heap w !! r.2 with
  | Some (OCounter tc), Some (OList ds), Some (OCounter ic) => Some (tc, ds, ic)
  | _, _, _ => None
  end.

(** The addresses of a run. *)
Definition addresses (r : positive * positive * positive) : list positive :=
  [r.1.1; r.1.2; r.2].

(** The world in which the two objects of a text extraction hold [acc]. *)
Definition holding (w : world) (combos detailed_chars : positive)
    (acc : Counter * list detail) : world :=
  World (disk w)
    (<[detailed_chars := OList (snd acc)]> (<[combos := OCounter (fst acc)]> (heap w))).

(** The world in which the object of an image extraction holds [c]. *)
Definition holding_counter (w : world) (combos : positive) (c : Counter) : world :=
  World (disk w) (<[combos := OCounter c]> (heap w)).

End Objects.

(** ** [Document_MetaData_Analysis.py] *)
Module MetaData.
Import Py.

#[local] Open Scope string_scope.

Definition SUSPICIOUS_KEYWORDS : list string :=
  [ "microsoft word"; "libreoffice"; "cutepdf";
    "openoffice"; "pdf creator"; "ilovepdf"; "smallpdf"; "pdfescape";
    "wondershare"; "foxit"; "nitro"; "sejda"; "online2pdf";
    "Microsoft: Print To PDF"; "Adobe" ].

(** A value of the document information dictionary: a text string, or
    another PDF object, of which only the class name matters here. *)
Inductive meta_value : Type :=
  | MText (s : string)
  | MObject (cls : string).

(** [reader.metadata]: [None], or the dictionary. *)
Abbreviation metadata := (option (gmap string meta_value)).

(** [if meta]: neither [None] nor an empty dictionary. *)
Definition truthy (meta : metadata) : bool :=
  match meta with
  | Some m => negb (bool_decide (m = ∅))
  | None => false
  end.

(** [meta.get(key, '') if meta else ''] *)
Definition meta_get (meta : metadata) (key : string) : meta_value :=
  match meta with
  | Some m => if truthy meta then default (MText "") (m !! key) else MText ""
  | None => MText ""
  end.

(** The result dictionary; [Edited] is [True], [False] or [None]. *)
Record result : Type := Result {
  File_Name : string;
  Edited : option bool;
  Reasons : string;
  Creation_Date : string;
  Modification_Date : string;
  Producer : meta_value;
  Creator : meta_value;
  Title : meta_value;
  Full_Metadata : string
}.

(** [try: body except Exception as e: handler(e)] *)
Definition try_except {A : Type} (body : exn + A) (handler : exn -> exn + A)
  : exn + A :=
  match body with
  | inl e => handler e
  | inr a => inr a
  end.

(** [text.encode('ascii', 'ignore').decode('ascii')]: on the UTF-8 bytes,
    the characters outside ASCII are the bytes from 128 on. An object that
    is not a string has no [encode]. *)
Fixpoint ascii_only (s : string) : string :=
  match s with
  | EmptyString => EmptyString
  | String c r =>
      if (byte_of c <? 128)%N then String c (ascii_only r) else ascii_only r
  end.

Definition remove_non_ascii (text : meta_value) : exn + string :=
  match text with
  | MText s => inr (ascii_only s)
  | MObject cls =>
      inl (Exn "AttributeError" ("'" +:+ cls +:+ "' object has no attribute 'encode'"))
  end.

(** [date_str[2:]] after the test [date_str.startswith("D:")] *)
Definition drop_date_prefix (date_str : string) : string :=
  if String.prefix "D:" date_str
  then substring 2 (String.length date_str - 2) date_str
  else date_str.

Section Analyzer.
(** The libraries the analyzer calls, and the files they read. *)
Variable datetime : Type.
(** [os.path.basename] *)
Variable basename : string -> string.
(** [PdfReader(file_path).metadata]: raises, or yields the metadata. *)
Variable read_metadata : string -> exn + metadata.
(** [json.dumps(dict(meta), indent=2)] *)
Variable json_dumps : gmap string meta_value -> exn + string.
(** [datetime.strptime(s[:14], '%Y%m%d%H%M%S')]; [None] when it raises. *)
Variable strptime14 : string -> option datetime.
(** [d.strftime("%Y-%m-%d %H:%M:%S")] *)
Variable strftime : datetime -> string.
(** [a > b] on datetimes *)
Variable datetime_gt : datetime -> datetime -> bool.

(** Any failure inside, also on an object that is not a string, is
    swallowed by the bare [except] and gives [None]. *)
Definition clean_pdf_date (date_str : meta_value) : option datetime :=
  match date_str with
  | MText s => strptime14 (drop_date_prefix s)
  | MObject _ => None
  end.

(** The keywords found in one cleaned value, as reasons. *)
Definition keyword_reasons (key val : string) : list string :=
  omap (fun word =>
          if contains (lower word) (lower val)
          then Some ("Suspicious keyword '" +:+ word +:+ "' found in "
                       +:+ key +:+ ": " +:+ val)
          else None) SUSPICIOUS_KEYWORDS.

(** The loop over the three keys on [(Edited, reasons)]. *)
Fixpoint scan_keys (meta : metadata) (keys : list string)
    (acc : bool * list string) : exn + (bool * list string) :=
  match keys with
  | [] => inr acc
  | key :: rest =>
      match remove_non_ascii (meta_get meta key) with
      | inl e => inl e
      | inr val =>
          let found := keyword_reasons key val in
          scan_keys meta rest
            (match found with [] => fst acc | _ => true end,
             (snd acc ++ found)%list)
      end
  end.

(** The body of the [try]. *)
Definition analyze_body (file_path : string) : exn + result :=
  match read_metadata file_path with
  | inl e => inl e
  | inr meta =>
      let full :=
        match meta with
        | Some m => if truthy meta then json_dumps m else inr "{}"
        | None => inr "{}"
        end in
      match full with
      | inl e => inl e
      | inr full_metadata =>
          let creation_date :=
            if truthy meta then clean_pdf_date (meta_get meta "/CreationDate")
            else None in
          let mod_date :=
            if truthy meta then clean_pdf_date (meta_get meta "/ModDate")
            else None in
          let later :=
            match creation_date, mod_date with
            | Some c, Some m => datetime_gt m c
            | _, _ => false
            end in
          let reasons0 :=
            if later then ["Modification date is later than creation date."]
            else [] in
          match scan_keys meta ["/Producer"; "/Creator"; "/Title"]
                  (later, reasons0) with
          | inl e => inl e
          | inr (edited, reasons) =>
              inr {| File_Name := basename file_path;
                     Edited := Some edited;
                     Reasons := join (String "010" EmptyString) reasons;
                     Creation_Date := from_option strftime "" creation_date;
                     Modification_Date := from_option strftime "" mod_date;
                     Producer := meta_get meta "/Producer";
                     Creator := meta_get meta "/Creator";
                     Title := meta_get meta "/Title";
                     Full_Metadata := full_metadata |}
          end
      end
  end.

(** The dictionary the [except] clause returns. *)
Definition error_result (file_path : string) (e : exn) : result :=
  {| File_Name := basename file_path;
     Edited := None;
     Reasons := "Error: " +:+ exn_message e;
     Creation_Date := "";
     Modification_Date := "";
     Producer := MText "";
     Creator := MText "";
     Title := MText "";
     Full_Metadata := "{}" |}.

Definition analyze_pdf (file_path : string) : exn + result :=
  try_except (analyze_body file_path)
             (fun e => inr (error_result file_path e)).

End Analyzer.

End MetaData.

(** ** Vocabulary of the statements and of their proofs *)
Module Spec.
Import Py FormatValidation MetaData.

(** *** Candidates and baselines *)

(** The frequency mappings extraction computes for the pages of a file. *)
Definition text_combos (pages : list page) : Counter :=
  fst (fold_left page_step (enumerate pages) (∅, [])).

Definition image_combos (pages : list page) : Counter :=
  fold_left image_page_step pages ∅.

(** [text_combos + image_combos], the candidate frequency mapping. *)
Definition candidate_combos (pages : list page) : Counter :=
  Counter_add (text_combos pages) (image_combos pages).

(** In the specification's words: the sum of the candidate counts of the
    keys present in the candidate and absent from the baseline. *)
Definition unexpected_occurrences (candidate baseline : Counter) : Z :=
  Counter_total (filter (fun kv => baseline !! kv.1 = None) candidate).

(** In the specification's words:
    [round(100 * unexpected_occurrences / total_occurrences, 2)], and 0 on
    an empty candidate. *)
Definition claimed_anomaly_percent (candidate baseline : Counter) : num :=
  let total_occurrences := Counter_total candidate in
  if total_occurrences =? 0 then NInt 0
  else NFloat (float_round
                 (int_truediv (100 * unexpected_occurrences candidate baseline)
                              total_occurrences) 2).

(** The baseline a list of readable files trains from an empty mapping:
    the mapping of each file added in turn. *)
Definition aggregate (docs : list (list page)) : Counter :=
  fold_left (fun c pages => Counter_update c (candidate_combos pages)) docs ∅.

(** *** Spans *)

(** A span whose text is empty once stripped. *)
Definition is_blank (sp : span) : bool :=
  str_is_empty (strip (default "" (span_text sp))).

Definition drop_blank_line (l : line) : line :=
  Line (filter (fun sp => is_blank sp = false) <$> line_spans l).

Definition drop_blank_block (b : block) : block :=
  Block (map drop_blank_line <$> block_lines b).

(** The page without its blank spans. *)
Definition drop_blank_page (p : page) : page :=
  Page (map drop_blank_block (page_blocks p)) (page_images p).

(** The entry [detailed_chars] gets for a span that is not blank. *)
Definition detail_of (page_num : Z) (sp : span) : detail :=
  {| d_text := strip (default "" (span_text sp));
     d_page := page_num;
     d_un_com := span_un_com sp;
     d_color := int_to_hex (default 0 (span_color sp));
     d_bbox := default [] (span_bbox sp) |}.

(** What a span adds to [detailed_chars]: its entry, unless it is blank. *)
Definition span_details (page_num : Z) (sp : span) : list detail :=
  if is_blank sp then [] else [detail_of page_num sp].

Definition line_details (page_num : Z) (l : line) : list detail :=
  default [] (line_spans l) ≫= span_details page_num.

Definition block_details (page_num : Z) (b : block) : list detail :=
  default [] (block_lines b) ≫= line_details page_num.

Definition page_details (ip : Z * page) : list detail :=
  page_blocks ip.2 ≫= block_details ip.1.

(** The entries of the spans that are not blank, in document order: page
    by page, block by block, line by line. *)
Definition spans_in_order (pages : list page) : list detail :=
  enumerate pages ≫= page_details.

(** How many times the key [k] occurs in a list of keys. *)
Definition key_occurrences (k : string) (ks : list string) : Z :=
  Z.of_nat (length (filter (fun k' => k' = k) ks)).

(** The frequency mapping of a list of keys: each key that occurs, with
    the number of its occurrences. *)
Definition frequencies (ks : list string) (k : string) : option Z :=
  if decide (k ∈ ks) then Some (key_occurrences k ks) else None.

(** The image keys of a document, one per listed image, in order. *)
Definition image_keys (pages : list page) : list string :=
  pages ≫= (fun p => image_un_comb <$> page_images p).

(** In the specification's words: absent size, flags, ascender and
    descender read as 0 and an absent font as "Unknown". *)
Definition claimed_sentinels (sp : span) : span :=
  {| span_text := span_text sp;
     span_font := Some (default "Unknown" (span_font sp));
     span_size := Some (default (NInt 0) (span_size sp));
     span_color := span_color sp;
     span_flags := Some (default 0 (span_flags sp));
     span_ascender := Some (default (NInt 0) (span_ascender sp));
     span_descender := Some (default (NInt 0) (span_descender sp));
     span_bbox := span_bbox sp |}.

(** The sentinels of the script: as above, but the flags stay absent (they
    print as the empty string), and an absent colour reads as 0. *)
Definition script_sentinels (sp : span) : span :=
  {| span_text := span_text sp;
     span_font := Some (default "Unknown" (span_font sp));
     span_size := Some (default (NInt 0) (span_size sp));
     span_color := Some (default 0 (span_color sp));
     span_flags := span_flags sp;
     span_ascender := Some (default (NInt 0) (span_ascender sp));
     span_descender := Some (default (NInt 0) (span_descender sp));
     span_bbox := Some (default [] (span_bbox sp)) |}.

(** The six parts of a text key, the flags printing as nothing when absent. *)
Definition span_key_parts (sp : span) : list string :=
  [ str_num (round_num (default (NInt 0) (span_size sp)) 1);
    from_option str_int "" (span_flags sp);
    default "Unknown" (span_font sp);
    int_to_hex (default 0 (span_color sp));
    str_num (default (NInt 0) (span_ascender sp));
    str_num (default (NInt 0) (span_descender sp)) ].

(** *** Images *)

(** The six fields of an image as the key prints them. *)
Definition image_fields (base : base_image) : list string :=
  [ str_int (default 0 (img_width base));
    str_int (default 0 (img_height base));
    default "unk" (img_ext base);
    from_option str_int "unk" (img_colorspace base);
    str_int (default 0 (img_bpc base));
    str_int (Z.of_nat (length (default [] (img_image base)))) ].

(** In the specification's words: the prefix and exactly the six fields,
    joined by the delimiter. *)
Definition claimed_image_key (base : base_image) : string :=
  "IMG_" +:+ join "_" (image_fields base).

(** The parts of the script's key: two constant fields stand between the
    colorspace and the bit depth. *)
Definition image_key_parts (base : base_image) : list string :=
  take 4 (image_fields base) ++ ["0"; "0"] ++ drop 4 (image_fields base).

(** A string that does not begin with the letter of the image prefix. *)
Definition not_image_head (s : string) : Prop :=
  match s with
  | String c _ => c <> "I"%char
  | EmptyString => True
  end.

(** The same of a string that is not empty. *)
Definition text_head (s : string) : Prop :=
  match s with
  | String c _ => c <> "I"%char
  | EmptyString => False
  end.

(** *** Floats *)

(** Zero, or a positive finite float of exponent at most 0 whose value
    is at most [C]. *)
Definition below (C : Z) (x : spec_float) : Prop :=
  match x with
  | S754_zero false => True
  | S754_finite false m e => e <= 0 /\ Zpos m <= C * 2 ^ (- e)
  | _ => False
  end.

(** The check of one value of [round(_, 2)], in hundredths. *)
Definition hundredth_in_range (n : Z) : bool :=
  float_le (float_of_int 0) (int_truediv n 100)
  && float_le (int_truediv n 100) (float_of_int 100).

End Spec.

(** ** Sample documents *)
Module Examples.
Import Py FormatValidation MetaData.

(** A run of 12pt Arial in black. *)
Definition arial_12_black : span :=
  {| span_text := Some "Invoice total";
     span_font := Some "Arial";
     span_size := Some (NFloat (float_of_int 12));
     span_color := Some 0;
     span_flags := Some 0;
     span_ascender := Some (NFloat (int_truediv 905 1000));
     span_descender := Some (NFloat (int_truediv (-212) 1000));
     span_bbox := None |}.

(** A run of 14pt Arial in red. *)
Definition arial_14_red : span :=
  {| span_text := Some "9,999.00";
     span_font := Some "Arial";
     span_size := Some (NFloat (float_of_int 14));
     span_color := Some 16711680;
     span_flags := Some 0;
     span_ascender := Some (NFloat (int_truediv 905 1000));
     span_descender := Some (NFloat (int_truediv (-212) 1000));
     span_bbox := None |}.

(** A span of which only the text is there. *)
Definition bare_span : span :=
  {| span_text := Some "x";
     span_font := None; span_size := None; span_color := None;
     span_flags := None; span_ascender := None; span_descender := None;
     span_bbox := None |}.

(** A span of spaces only. *)
Definition blank_span : span :=
  {| span_text := Some "   ";
     span_font := Some "Arial"; span_size := None; span_color := None;
     span_flags := None; span_ascender := None; span_descender := None;
     span_bbox := None |}.

Definition one_line_page (spans : list span) : page :=
  {| page_blocks := [ Block (Some [ Line (Some spans) ]) ];
     page_images := [] |}.

Definition genuine_pages : list page := [ one_line_page [ arial_12_black ] ].
Definition genuine_pdf : pdf_file := Readable genuine_pages.

(** 137 runs as in the genuine file and 23 runs in red. *)
Definition tampered_pages : list page :=
  [ one_line_page (repeat arial_12_black 137 ++ repeat arial_14_red 23) ].
Definition tampered_pdf : pdf_file := Readable tampered_pages.

(** Ten runs as in the genuine file and one run in red. *)
Definition scenario_pages : list page :=
  [ one_line_page (repeat arial_12_black 10 ++ [ arial_14_red ]) ].

Definition corrupt_pdf : pdf_file :=
  Unreadable (Exn "FileDataError" "Failed to open file").

(** The session after training on the genuine file. *)
Definition trained_session : session :=
  snd (train_handler [ genuine_pdf ] initial_session).

Definition png_image : base_image :=
  {| img_width := Some 10; img_height := Some 20; img_ext := Some "png";
     img_colorspace := Some 3; img_bpc := Some 8; img_image := Some [] |}.

(** An integer below [2^63] as the machine's float. *)
Definition machine_float (z : Z) : PrimFloat.float :=
  PrimFloat.of_uint63 (Uint63.of_Z z).

(** A file system on which no file opens. *)
Definition no_file (path : string) : exn + metadata :=
  inl (Exn "FileNotFoundError" "No such file").

(** [os.path.basename] on POSIX: what follows the last slash. *)
Fixpoint basename_from (cur p : string) : string :=
  match p with
  | EmptyString => cur
  | String c r =>
      if Ascii.eqb c "/" then basename_from "" r
      else basename_from (cur +:+ String c EmptyString) r
  end.

Definition posix_basename (p : string) : string := basename_from "" p.

(** The analyzer over that file system; no call reaches the other
    libraries. *)
Definition analyze_missing (file_path : string) : exn + result :=
  analyze_pdf unit posix_basename no_file (fun _ => inr "{}")
    (fun _ => None) (fun _ => "") (fun _ _ => false) file_path.

End Examples.

(** ** Vocabulary of the further properties *)
Module Derived.
Import Py FormatValidation MetaData Spec.

(** The entries of the spans whose key is not a key of the baseline, in
    document order. *)
Definition flagged_spans (trained : Counter) (pages : list page) : list detail :=
  filter (fun d => trained !! d_un_com d = None) (spans_in_order pages).

(** The keys of the listed images that are not keys of the baseline, one
    per listed image. *)
Definition unseen_images (trained : Counter) (pages : list page) : list string :=
  filter (fun k => trained !! k = None) (image_keys pages).

(** The count of the key [k] summed over the training files. *)
Definition summed_count (docs : list (list page)) (k : string) : Z :=
  foldr (fun pages acc => Counter_get (candidate_combos pages) k + acc) 0 docs.

(** How many images the pages list. *)
Definition image_count (pages : list page) : nat :=
  sum_list_with (fun p => length (page_images p)) pages.

(** The value of a digit of [format_02X]. *)
Definition hex_value (c : ascii) : Z :=
  let n := Z.of_N (byte_of c) in
  if n <? 58 then n - 48 else n - 55.

(** The colour a string of [int_to_hex] stands for. *)
Definition hex_to_int (s : string) : Z :=
  match s with
  | String _ (String r1 (String r0 (String g1 (String g0 (String b1 (String b0 _)))))) =>
      65536 * (16 * hex_value r1 + hex_value r0)
      + 256 * (16 * hex_value g1 + hex_value g0)
      + (16 * hex_value b1 + hex_value b0)
  | _ => 0
  end.

(** Whether every byte of a string is an ASCII character. *)
Fixpoint all_ascii (s : string) : bool :=
  match s with
  | EmptyString => true
  | String c r => (byte_of c <? 128)%N && all_ascii r
  end.

(** The test of the inner loop of the analyzer, over the keywords: some
    keyword, in lower case, occurs in the value in lower case. *)
Definition mentions_keyword (val : string) : bool :=
  existsb (fun word => contains (lower word) (lower val)) SUSPICIOUS_KEYWORDS.

(** The second check of the analyzer on one key: the cleaned value of the
    key mentions a keyword. *)
Definition keyword_in (meta : metadata) (key : string) : bool :=
  match remove_non_ascii (meta_get meta key) with
  | inr val => mentions_keyword val
  | inl _ => false
  end.

Section Dates.
Variable datetime : Type.
Variable strptime14 : string -> option datetime.
Variable datetime_gt : datetime -> datetime -> bool.

(** The first check of the analyzer: there is metadata, both dates parse
    and the modification date is the later one. *)
Definition modified_later (meta : metadata) : bool :=
  if truthy meta then
    match clean_pdf_date datetime strptime14 (meta_get meta "/CreationDate"),
          clean_pdf_date datetime strptime14 (meta_get meta "/ModDate") with
    | Some c, Some m => datetime_gt m c
    | _, _ => false
    end
  else false.

End Dates.

End Derived.

(** ** Further sample documents *)
Module Samples.
Import Py FormatValidation MetaData Examples.

(** One run in red and nothing else. *)
Definition red_pages : list page := [ one_line_page [ arial_14_red ] ].

(** A page of spaces only. *)
Definition blank_pages : list page := [ one_line_page [ blank_span ] ].

(** A page with a run and an image, followed by a page of red runs. *)
Definition mixed_pages : list page :=
  [ {| page_blocks := [ Block (Some [ Line (Some [ arial_12_black; blank_span ]) ]) ];
       page_images := [ png_image ] |};
    one_line_page [ arial_14_red; arial_14_red ] ].

(** The information dictionary of a file exported and then touched up. *)
Definition exported_metadata : metadata :=
  Some {[ "/Producer" := MText "ADOBE Acrobat 11";
          "/CreationDate" := MText "D:20240101120000+01'00'";
          "/ModDate" := MText "D:20240301090000+01'00'" ]}.

(** A dictionary whose producer is not a text string. *)
Definition binary_metadata : metadata :=
  Some {[ "/Producer" := MObject "ByteStringObject" ]}.

(** A date as its fourteen digits, which order as the dates do. *)
Definition digits14 (s : string) : option string :=
  if (14 <=? String.length s)%nat then Some (substring 0 14 s) else None.

Definition digits_gt (a b : string) : bool :=
  match String.compare a b with Gt => true | _ => false end.

(** The fourteen digits laid out as year-month-day hour:minute:second. *)
Definition dashed (d : string) : string :=
  substring 0 4 d +:+ "-" +:+ substring 4 2 d +:+ "-" +:+ substring 6 2 d
    +:+ " " +:+ substring 8 2 d +:+ ":" +:+ substring 10 2 d
    +:+ ":" +:+ substring 12 2 d.

(** The analyzer over a reader that finds the given metadata in every
    file. *)
Definition analyze_with (meta : metadata) (file_path : string) : exn + result :=
  analyze_pdf string posix_basename (fun _ => inr meta) (fun _ => inr "{}")
    digits14 dashed digits_gt file_path.

Definition analyze_body_with (meta : metadata) (file_path : string) : exn + result :=
  analyze_body string posix_basename (fun _ => inr meta) (fun _ => inr "{}")
    digits14 dashed digits_gt file_path.

End Samples.

(** * Properties *)
Import Py FormatValidation MetaData Spec Examples.

(** Splits a conjunction into its parts, and closes closed equations by
    evaluation. *)
Ltac conjuncts := repeat match goal with |- _ /\ _ => split end.
Ltac by_computation := conjuncts; vm_compute; reflexivity.


(** ** The runtime at sample values, as the interpreter prints them *)
Example strip_spaces : strip "  Invoice total  " = "Invoice total".
Proof. reflexivity. Qed.

(** U+00A0 and U+3000 are whitespace, U+200B is not. *)
Example strip_unicode :
  strip (String "194" (String "160" ("x" +:+ String "227" (String "128" (String "128" "")))))
  = "x" /\
  strip (String "226" (String "128" (String "139" "x")))
  = String "226" (String "128" (String "139" "x")).
Proof. split; reflexivity. Qed.

Example int_to_hex_red : int_to_hex 16711680 = "#FF0000".
Proof. reflexivity. Qed.

(** Bits above the 24th are dropped, and a negative integer is read in
    two's complement. *)
Example int_to_hex_high_bits :
  int_to_hex 33489151 = "#FF00FF" /\ int_to_hex (-1) = "#FFFFFF".
Proof. split; reflexivity. Qed.

Example repr_samples :
  float_repr (int_truediv 1 3) = "0.3333333333333333" /\
  float_repr (int_truediv 1 10000) = "0.0001" /\
  float_repr (int_truediv 1 100000) = "1e-05" /\
  float_repr (float_of_int (10 ^ 16)) = "1e+16" /\
  float_repr (float_of_int (10 ^ 22)) = "1e+22" /\
  float_repr (int_truediv (10 ^ 30) 7) = "1.4285714285714285e+29" /\
  float_repr (float_of_int 12) = "12.0".
Proof. by_computation. Qed.

(** [round] works on the binary value: 0.125 is a tie and goes to the even
    digit, 2.675 is below the tie. *)
Example round_samples :
  float_repr (float_round (int_truediv 125 1000) 2) = "0.12" /\
  float_repr (float_round (int_truediv 2675 1000) 2) = "2.67" /\
  float_repr (float_round (int_truediv 12345 1000) 1) = "12.3" /\
  float_repr (float_round (int_truediv 15 100) 1) = "0.1" /\
  float_repr (float_round (int_truediv 25 100) 1) = "0.2".
Proof. by_computation. Qed.

Example mul_sample :
  float_repr (float_mul (int_truediv 1 3) (float_of_int 100)) = "33.33333333333333".
Proof. vm_compute. reflexivity. Qed.

(** The model of the division and of the product is the machine's. *)
Example truediv_is_machine_division :
  FloatOps.Prim2SF (PrimFloat.div (machine_float 23) (machine_float 160))
  = int_truediv 23 160 /\
  FloatOps.Prim2SF
    (PrimFloat.mul (PrimFloat.div (machine_float 23) (machine_float 160))
                   (machine_float 100))
  = float_mul (int_truediv 23 160) (float_of_int 100) /\
  FloatOps.Prim2SF (PrimFloat.div (machine_float 1437) (machine_float 100))
  = float_round (float_mul (int_truediv 23 160) (float_of_int 100)) 2.
Proof. by_computation. Qed.

Example Counter_add_drops_nonpositive :
  Counter_add {[ "a" := 1 ]} {[ "a" := -1; "b" := 2 ]} = {[ "b" := 2 ]}.
Proof. vm_compute. reflexivity. Qed.

Example Counter_update_keeps_zero :
  Counter_update {[ "a" := 1 ]} {[ "a" := -1 ]} = {[ "a" := 0 ]} /\
  Counter_bool (Counter_update {[ "a" := 1 ]} {[ "a" := -1 ]}) = true.
Proof. by_computation. Qed.

Example text_key_sample :
  span_un_com arial_12_black = "12.0_0_Arial_#000000_0.905_-0.212".
Proof. vm_compute. reflexivity. Qed.

Example keyword_match :
  keyword_reasons "/Producer" "Adobe PDF Library 15.0"
  = ["Suspicious keyword 'Adobe' found in /Producer: Adobe PDF Library 15.0"].
Proof. vm_compute. reflexivity. Qed.

(** The scenario of the specification: trained on 12pt Arial in black, a
    candidate of ten such runs and one run of 14pt Arial in red has one
    unexpected key, occurring once out of eleven, scores 9.09 and has one
    suspicious span. *)
Example specification_scenario :
  exists r,
    validate_handler (Some (Readable scenario_pages)) trained_session
    = (inr (Scored r), trained_session) /\
    unexpected r = {[ "14.0_0_Arial_#FF0000_0.905_-0.212" ]} /\
    unexpected_used r = 1 /\ total_used r = 11 /\
    str_num (fraud_score r) = "9.09" /\
    suspicious_chars r = [ detail_of 0 arial_14_red ].
Proof.
  eexists. split; [vm_compute; reflexivity|]. by_computation.
Qed.


(** ** Counters *)
Section CounterFacts.
Implicit Types c m test trained : gmap string Z.

Lemma Counter_total_empty : Counter_total ∅ = 0.
Proof. unfold Counter_total. by rewrite map_fold_empty. Qed.

Lemma Counter_total_insert m k v :
  m !! k = None -> Counter_total (<[k:=v]> m) = Counter_total m + v.
Proof.
  intros Hk. unfold Counter_total.
  rewrite map_fold_insert_L; [done| |done].
  intros. lia.
Qed.

Lemma sum_over_empty test : sum_over test ∅ = 0.
Proof. unfold sum_over. by rewrite set_fold_empty. Qed.

Lemma sum_over_insert test (X : gset string) k :
  k ∉ X -> sum_over test ({[k]} ∪ X) = sum_over test X + Counter_get test k.
Proof.
  intros Hk. unfold sum_over.
  rewrite (set_fold_disj_union_strong (=) _ _ {[k]} X).
  - rewrite set_fold_singleton.
    apply (set_fold_comm_acc (fun x acc => acc + Counter_get test x)
             (fun acc => acc + Counter_get test k)).
    intros; lia.
  - solve_proper.
  - intros; lia.
  - set_solver.
Qed.

(** Summing the lookups over the keys of a sub-counter is its total. *)
Lemma sum_over_dom m test :
  m ⊆ test -> sum_over test (dom m) = Counter_total m.
Proof.
  induction m as [|k v m Hk IH] using map_ind; intros Hsub.
  - by rewrite dom_empty_L, sum_over_empty, Counter_total_empty.
  - rewrite dom_insert_L, sum_over_insert by by apply not_elem_of_dom.
    rewrite Counter_total_insert by done.
    rewrite IH.
    + f_equal. unfold Counter_get.
      assert (test !! k = Some v) as ->; [|done].
      eapply lookup_weaken; [|done]. by rewrite lookup_insert_eq.
    + etrans; [|done]. by apply insert_subseteq.
Qed.

Lemma Counter_total_filter_bounds (P : string * Z -> Prop)
    `{!forall x, Decision (P x)} m :
  (forall k v, m !! k = Some v -> 0 <= v) ->
  0 <= Counter_total (filter P m) <= Counter_total m.
Proof.
  induction m as [|k v m Hk IH] using map_ind; intros Hpos.
  - rewrite map_filter_empty, Counter_total_empty. lia.
  - assert (0 <= v) by (apply (Hpos k); by rewrite lookup_insert_eq).
    assert (0 <= Counter_total (filter P m) <= Counter_total m) as Hm.
    { apply IH. intros j w Hj. apply (Hpos j).
      rewrite lookup_insert_ne; [done|]. intros ->. congruence. }
    rewrite (Counter_total_insert m) by done.
    destruct (decide (P (k, v))).
    + rewrite map_filter_insert_True by done.
      rewrite Counter_total_insert; [lia|].
      by rewrite map_lookup_filter_None; left.
    + rewrite map_filter_insert_not' by (done || congruence). lia.
Qed.

Lemma Counter_add_positive c1 c2 k v :
  Counter_add c1 c2 !! k = Some v -> 0 < v.
Proof.
  unfold Counter_add. rewrite lookup_merge. unfold diag_None, keep_positive.
  destruct (c1 !! k), (c2 !! k); simpl; try done;
    (case_match; [|done]); intros [= <-]; lia.
Qed.

Lemma Counter_bool_false c : Counter_bool c = false <-> c = ∅.
Proof.
  unfold Counter_bool. rewrite negb_false_iff. apply bool_decide_eq_true.
Qed.

Lemma Counter_bool_true c : Counter_bool c = true -> c <> ∅.
Proof. intros Hb ->. by vm_compute in Hb. Qed.
End CounterFacts.

(** ** Rounding to binary64 *)
Section Rounding.

Lemma digits2_pos_lower (p : positive) :
  2 ^ (Zpos (digits2_pos p) - 1) <= Zpos p.
Proof.
  induction p as [p IH|p IH|]; cbn [digits2_pos].
  - rewrite Pos2Z.inj_succ. replace (Z.succ (Zpos (digits2_pos p)) - 1)
      with (Z.succ (Zpos (digits2_pos p) - 1)) by lia.
    rewrite Z.pow_succ_r by lia. lia.
  - rewrite Pos2Z.inj_succ. replace (Z.succ (Zpos (digits2_pos p)) - 1)
      with (Z.succ (Zpos (digits2_pos p) - 1)) by lia.
    rewrite Z.pow_succ_r by lia. lia.
  - simpl. lia.
Qed.

(** A mantissa below [2^k] has at most [k] digits. *)
Lemma Zdigits2_le (m k : Z) : 0 <= m -> 0 <= k -> m < 2 ^ k -> Zdigits2 m <= k.
Proof.
  intros Hm Hk Hlt. destruct m as [|p|p]; simpl; [lia| |lia].
  pose proof (digits2_pos_lower p) as Hlow.
  destruct (Z_le_gt_dec (Zpos (digits2_pos p)) k) as [|Hgt]; [done|].
  assert (2 ^ k <= 2 ^ (Zpos (digits2_pos p) - 1)) by (apply Z.pow_le_mono_r; lia).
  lia.
Qed.

Lemma mod_mul_split (a b c : Z) :
  0 < b -> 0 < c -> a mod (b * c) = 0 -> a mod b = 0 /\ (a / b) mod c = 0.
Proof.
  intros Hb Hc Hmod. rewrite Z.rem_mul_r in Hmod by lia.
  pose proof (Z.mod_pos_bound a b). pose proof (Z.mod_pos_bound (a / b) c). nia.
Qed.

Lemma shr_1_m (mrs : shr_record) :
  0 <= shr_m mrs -> shr_m (shr_1 mrs) = shr_m mrs / 2.
Proof.
  destruct mrs as [m r s]. cbn [shr_m]. intros Hm.
  destruct m as [|[p|p|]|p]; cbn [shr_1 shr_m]; [done| | |done|lia].
  - apply Z.div_unique with 1; lia.
  - apply Z.div_unique with 0; lia.
Qed.

Lemma shr_1_exact (mrs : shr_record) :
  0 <= shr_m mrs -> shr_r mrs = false -> shr_s mrs = false ->
  shr_m mrs mod 2 = 0 ->
  shr_r (shr_1 mrs) = false /\ shr_s (shr_1 mrs) = false.
Proof.
  destruct mrs as [m r s]. cbn [shr_m shr_r shr_s]. intros Hm -> -> Hmod.
  destruct m as [|[p|p|]|p]; cbn [shr_1 shr_r shr_s orb]; try done.
  replace (Zpos p~1) with (1 + Zpos p * 2) in Hmod by lia.
  rewrite Z.mod_add in Hmod by lia. done.
Qed.

(** Shifting right [p] times divides the mantissa by [2^p], and loses
    nothing when the mantissa is a multiple of [2^p]. *)
Lemma shr_iter (p : positive) (mrs : shr_record) :
  0 <= shr_m mrs ->
  shr_m (SpecFloat.iter_pos shr_1 p mrs) = shr_m mrs / 2 ^ Zpos p /\
  (shr_r mrs = false -> shr_s mrs = false -> shr_m mrs mod 2 ^ Zpos p = 0 ->
   shr_r (SpecFloat.iter_pos shr_1 p mrs) = false /\ shr_s (SpecFloat.iter_pos shr_1 p mrs) = false).
Proof.
  revert mrs. induction p as [p IH|p IH|]; intros mrs Hm; cbn [SpecFloat.iter_pos].
  - assert (0 < 2 ^ Zpos p) by (apply Z.pow_pos_nonneg; lia).
    assert (2 ^ Zpos p~1 = 2 * (2 ^ Zpos p * 2 ^ Zpos p)) as Hpow.
    { rewrite Pos2Z.inj_xI, <- Z.pow_add_r, <- Z.pow_succ_r by lia. f_equal. lia. }
    assert (0 <= shr_m (shr_1 mrs)) as H1
      by (rewrite shr_1_m by done; apply Z.div_pos; lia).
    destruct (IH _ H1) as [Ha Ha'].
    assert (0 <= shr_m (SpecFloat.iter_pos shr_1 p (shr_1 mrs))) as H2
      by (rewrite Ha; apply Z.div_pos; lia).
    destruct (IH _ H2) as [Hb Hb']. split.
    + rewrite Hb, Ha, shr_1_m, Hpow, !Z.div_div by lia. done.
    + intros Hr Hs Hmod. rewrite Hpow in Hmod.
      apply mod_mul_split in Hmod as [Hm1 Hm2]; [|lia|lia].
      apply mod_mul_split in Hm2 as [Hm2 Hm3]; [|lia|lia].
      destruct (shr_1_exact mrs) as [Hr1 Hs1]; [done..|].
      rewrite <- shr_1_m in Hm2, Hm3 by done.
      destruct (Ha' Hr1 Hs1 Hm2) as [Hr2 Hs2].
      apply Hb'; [done|done|]. by rewrite Ha.
  - assert (0 < 2 ^ Zpos p) by (apply Z.pow_pos_nonneg; lia).
    assert (2 ^ Zpos p~0 = 2 ^ Zpos p * 2 ^ Zpos p) as Hpow.
    { rewrite Pos2Z.inj_xO, <- Z.pow_add_r by lia. f_equal. lia. }
    destruct (IH _ Hm) as [Ha Ha'].
    assert (0 <= shr_m (SpecFloat.iter_pos shr_1 p mrs)) as H2
      by (rewrite Ha; apply Z.div_pos; lia).
    destruct (IH _ H2) as [Hb Hb']. split.
    + rewrite Hb, Ha, Hpow, !Z.div_div by lia. done.
    + intros Hr Hs Hmod. rewrite Hpow in Hmod.
      apply mod_mul_split in Hmod as [Hm1 Hm2]; [|lia|lia].
      destruct (Ha' Hr Hs Hm1) as [Hr2 Hs2].
      apply Hb'; [done|done|]. by rewrite Ha.
  - split; [by apply shr_1_m|]. intros. by apply shr_1_exact.
Qed.

(** The mantissa [shr_fexp] keeps, its exponent, and what is known of the
    location: it stays exact when no set bit is shifted out. *)
Lemma shr_fexp_spec (m e : Z) (l : location) :
  0 <= m ->
  let e1 := Z.max e (fexp prec emax (Zdigits2 m + e)) in
  exists mrs, shr_fexp prec emax m e l = (mrs, e1) /\
    shr_m mrs = m / 2 ^ (e1 - e) /\
    (l = loc_Exact -> m mod 2 ^ (e1 - e) = 0 -> loc_of_shr_record mrs = loc_Exact).
Proof.
  intros Hm e1. unfold shr_fexp, shr.
  destruct (fexp prec emax (Zdigits2 m + e) - e) as [|p|p] eqn:Hn.
  - exists (shr_record_of_loc m l). replace e1 with e by lia.
    rewrite Z.sub_diag, Z.div_1_r. repeat split.
    + by destruct l as [|[]].
    + by intros ->.
  - exists (SpecFloat.iter_pos shr_1 p (shr_record_of_loc m l)).
    assert (e1 = e + Zpos p) as -> by lia.
    replace (e + Zpos p - e) with (Zpos p) by lia.
    assert (shr_m (shr_record_of_loc m l) = m) as Hrec by by destruct l as [|[]].
    destruct (shr_iter p (shr_record_of_loc m l)) as [Ha Ha']; [by rewrite Hrec|].
    rewrite Hrec in Ha, Ha'. repeat split; [done|].
    intros -> Hmod. destruct (Ha' eq_refl eq_refl Hmod) as [Hr Hs].
    destruct (SpecFloat.iter_pos _ _ _) as [m' r' s']. simpl in *. by subst.
  - exists (shr_record_of_loc m l). replace e1 with e by lia.
    rewrite Z.sub_diag, Z.div_1_r. repeat split.
    + by destruct l as [|[]].
    + by intros ->.
Qed.

Lemma round_nearest_even_bounds (m : Z) (l : location) :
  m <= round_nearest_even m l <= m + 1 /\
  (l = loc_Exact -> round_nearest_even m l = m).
Proof.
  split; [|by intros ->].
  destruct l as [|[]]; simpl; try lia. destruct (Z.even m); lia.
Qed.

Lemma fexp_nonpos (C m e : Z) :
  0 < C < 2 ^ 53 -> 0 <= m -> e <= 0 -> m <= C * 2 ^ (- e) ->
  fexp prec emax (Zdigits2 m + e) <= 0.
Proof.
  intros HC Hm He Hle. unfold fexp, emin, prec, emax.
  assert (0 < 2 ^ (- e)) by (apply Z.pow_pos_nonneg; lia).
  assert (Zdigits2 m <= 53 - e); [|lia].
  apply Zdigits2_le; [done|lia|].
  replace (53 - e) with (53 + - e) by lia. rewrite Z.pow_add_r by lia. nia.
Qed.

Lemma shift_bound (C m e e1 : Z) :
  e <= e1 -> e1 <= 0 -> 0 <= m -> m <= C * 2 ^ (- e) ->
  0 <= m / 2 ^ (e1 - e) <= C * 2 ^ (- e1) /\
  (m / 2 ^ (e1 - e) = C * 2 ^ (- e1) ->
   m = C * 2 ^ (- e) /\ m mod 2 ^ (e1 - e) = 0).
Proof.
  intros He He1 Hm Hle.
  assert (0 < 2 ^ (e1 - e)) as HK by (apply Z.pow_pos_nonneg; lia).
  assert (2 ^ (- e) = 2 ^ (- e1) * 2 ^ (e1 - e)) as Hpow.
  { rewrite <- Z.pow_add_r by lia. f_equal. lia. }
  rewrite Hpow in *.
  pose proof (Z.div_mod m (2 ^ (e1 - e)) ltac:(lia)) as Hdm.
  pose proof (Z.mod_pos_bound m (2 ^ (e1 - e)) HK) as Hmod.
  split; [split|].
  - apply Z.div_pos; lia.
  - apply Z.div_le_upper_bound; [done|]. lia.
  - intros Heq. rewrite Heq in Hdm. split; nia.
Qed.

(** Rounding what is at most [C], and exact when it is [C], gives a
    float that is at most [C]. *)
Lemma binary_round_aux_below (C m e : Z) (l : location) :
  0 < C < 2 ^ 53 -> 0 <= m -> e <= 0 -> m <= C * 2 ^ (- e) ->
  (m = C * 2 ^ (- e) -> l = loc_Exact) ->
  below C (binary_round_aux prec emax false m e l).
Proof.
  intros HC Hm He Hle Hexact. unfold binary_round_aux.
  destruct (shr_fexp_spec m e l Hm) as (mrs1 & -> & Hm1 & Hloc1).
  pose proof (fexp_nonpos C m e HC Hm He Hle) as Hf1.
  set (e1 := Z.max e (fexp prec emax (Zdigits2 m + e))) in *.
  assert (e <= e1 <= 0) as [Hee1 He1] by lia.
  destruct (shift_bound C m e e1 Hee1 He1 Hm Hle) as [[Hm1a Hm1b] Hm1c].
  rewrite <- Hm1 in Hm1a, Hm1b, Hm1c.
  destruct (round_nearest_even_bounds (shr_m mrs1) (loc_of_shr_record mrs1))
    as [Hr Hr'].
  set (m2 := round_nearest_even (shr_m mrs1) (loc_of_shr_record mrs1)) in *.
  assert (0 <= m2 <= C * 2 ^ (- e1)) as [Hm2a Hm2b].
  { split; [lia|].
    destruct (Z.eq_dec (shr_m mrs1) (C * 2 ^ (- e1))) as [Heq|Hne]; [|lia].
    destruct (Hm1c Heq) as [Heq' Hmod].
    rewrite Hr'; [lia|]. apply Hloc1; [by apply Hexact|done]. }
  destruct (shr_fexp_spec m2 e1 loc_Exact Hm2a) as (mrs2 & -> & Hm3 & _).
  pose proof (fexp_nonpos C m2 e1 HC Hm2a He1 Hm2b) as Hf2.
  set (e2 := Z.max e1 (fexp prec emax (Zdigits2 m2 + e1))) in *.
  assert (e1 <= e2 <= 0) as [Hee2 He2] by lia.
  destruct (shift_bound C m2 e1 e2 Hee2 He2 Hm2a Hm2b) as [[Hm3a Hm3b] _].
  rewrite <- Hm3 in Hm3a, Hm3b.
  destruct (shr_m mrs2) as [|p|p]; simpl; [done| |lia].
  assert ((e2 <=? emax - prec) = true) as -> by (unfold emax, prec; lia).
  simpl. done.
Qed.
End Rounding.


Section ScoreBounds.

Lemma shifted_numerator (u s : Z) :
  0 <= s ->
  match s with
  | Zpos _ => Z.shiftl u s
  | Z0 => u
  | Zneg _ => 0
  end = u * 2 ^ s.
Proof.
  intros Hs. destruct s as [|p|p]; [lia| |lia].
  by rewrite Z.shiftl_mul_pow2.
Qed.

Lemma new_location_zero (t : Z) : new_location t 0 = loc_Exact.
Proof. unfold new_location. by destruct (Z.even t). Qed.

(** [u / t] is at most 1 when [u <= t]. *)
Lemma int_truediv_below (u t : Z) :
  0 <= u <= t -> 0 < t -> below 1 (int_truediv u t).
Proof.
  intros [Hu Hut] Ht. destruct t as [|pt|pt]; [lia| |lia].
  destruct u as [|pu|pu]; [done| |lia].
  unfold int_truediv, exact_int, SFdiv, SFdiv_core_binary.
  set (e' := Z.min _ (0 - 0)).
  assert (e' <= 0) as He' by (subst e'; lia).
  replace (0 - 0 - e') with (- e') by lia.
  rewrite shifted_numerator by lia.
  pose proof (Z_div_mod (Zpos pu * 2 ^ (- e')) (Zpos pt) ltac:(lia)) as Hdm.
  destruct (Z.div_eucl (Zpos pu * 2 ^ (- e')) (Zpos pt)) as [q r].
  destruct Hdm as [Hdm Hr].
  assert (0 < 2 ^ (- e')) by (apply Z.pow_pos_nonneg; lia).
  simpl xorb. apply binary_round_aux_below; [lia| |done| |].
  - nia.
  - nia.
  - intros Hq. assert (r = 0) as -> by nia. apply new_location_zero.
Qed.

(** The percentage is at most 100. *)
Lemma float_mul_100_below (x : float) :
  below 1 x -> below 100 (float_mul x (float_of_int 100)).
Proof.
  replace (float_of_int 100) with (S754_finite false 7036874417766400 (-46))
    by (vm_compute; reflexivity).
  destruct x as [[]|[]| |[] m e]; simpl; try done.
  intros [He Hm]. unfold float_mul, SFmul. simpl xorb.
  assert (0 < 2 ^ (- e)) by (apply Z.pow_pos_nonneg; lia).
  apply binary_round_aux_below; [lia|lia|lia| |done].
  replace (- (e + -46)) with (- e + 46) by lia.
  rewrite Z.pow_add_r, Pos2Z.inj_mul by lia.
  change (2 ^ 46) with 70368744177664.
  nia.
Qed.

Lemma div_half_even_bounds (num den C : Z) :
  0 <= num -> 0 < den -> num <= C * den ->
  0 <= div_half_even num den <= C.
Proof.
  intros Hnum Hden Hle. unfold div_half_even.
  pose proof (Z_div_mod num den ltac:(lia)) as Hdm.
  destruct (Z.div_eucl num den) as [q r]. destruct Hdm as [Hdm Hr].
  assert (0 <= q) by nia.
  assert (q <= C) by nia.
  destruct (2 * r ?= den) eqn:Hcmp; [destruct (Z.even q)| |]; try lia.
  - apply Z.compare_eq in Hcmp. nia.
  - apply Z.compare_gt_iff in Hcmp. nia.
Qed.

(** [round(x, 2)] of a percentage is a number of hundredths up to 10000,
    read back as a float. *)
Lemma float_round_hundredths (x : float) :
  below 100 x ->
  float_round x 2 = S754_zero false \/
  exists n, 0 < n <= 10000 /\ float_round x 2 = int_truediv n 100.
Proof.
  destruct x as [[]|[]| |[] m e]; simpl below; try done; [by left|].
  intros [He Hm]. unfold float_round.
  change (10 ^ 2) with 100.
  assert (0 <= scaled_half_even m e 100 <= 10000) as Hn.
  { unfold scaled_half_even. destruct e as [|p|p]; [simpl in *; lia|lia|].
    assert (0 < 2 ^ Zpos p) by (apply Z.pow_pos_nonneg; lia).
    apply div_half_even_bounds; [lia|done|].
    change (- Zneg p) with (Zpos p) in Hm. nia. }
  destruct (scaled_half_even m e 100) as [|n|n] eqn:Hs; [by left| |lia].
  right. exists (Zpos n). split; [lia|done].
Qed.

Lemma hundredths_checked :
  forallb hundredth_in_range (map Z.of_nat (seq 1 (Z.to_nat 10000))) = true.
Proof. vm_compute. reflexivity. Qed.

Lemma hundredth_ok (n : Z) :
  0 < n <= 10000 -> hundredth_in_range n = true.
Proof.
  intros Hn. pose proof hundredths_checked as Hall.
  rewrite forallb_forall in Hall. apply Hall.
  apply in_map_iff. exists (Z.to_nat n). split; [lia|].
  apply in_seq. lia.
Qed.

(** The score computed from [0 <= u <= t] lies between 0 and 100. *)
Lemma compute_fraud_score_bounds (u t : Z) :
  0 <= u <= t ->
  num_le (NInt 0) (compute_fraud_score u t) = true /\
  num_le (compute_fraud_score u t) (NInt 100) = true.
Proof.
  intros Hut. unfold compute_fraud_score.
  destruct (t =? 0) eqn:Ht; [done|].
  apply Z.eqb_neq in Ht.
  pose proof (int_truediv_below u t Hut ltac:(lia)) as H1.
  apply float_mul_100_below in H1.
  destruct (float_round_hundredths _ H1) as [->|(n & Hn & ->)]; [done|].
  pose proof (hundredth_ok n Hn) as Hok.
  unfold hundredth_in_range in Hok. apply andb_true_iff in Hok.
  exact Hok.
Qed.
End ScoreBounds.


(** ** Scoring *)
Section Scoring.
Implicit Types test trained : gmap string Z.

Lemma unexpected_used_occurrences test trained :
  sum_over test (Counter_keys test ∖ Counter_keys trained)
  = unexpected_occurrences test trained.
Proof.
  unfold unexpected_occurrences, Counter_keys.
  rewrite <- (sum_over_dom _ test) by apply map_filter_subseteq.
  f_equal. symmetry. apply dom_filter_L. intros k.
  rewrite elem_of_difference, !elem_of_dom, <- eq_None_not_Some.
  split.
  - intros [[v Hv] Hnone]. by exists v.
  - intros (v & Hv & Hnone). split; [by exists v|done].
Qed.

Lemma unexpected_occurrences_bounds test trained :
  (forall k v, test !! k = Some v -> 0 < v) ->
  0 <= unexpected_occurrences test trained <= Counter_total test.
Proof.
  intros Hpos. apply Counter_total_filter_bounds.
  intros k v Hk. apply Hpos in Hk. lia.
Qed.

(** What the handler answers on a readable file once a baseline is there. *)
Lemma validate_readable (s : session) (pages : list page) :
  trained_un_combos s <> ∅ ->
  validate_handler (Some (Readable pages)) s
  = (inr (Scored (score (trained_un_combos s) (candidate_combos pages)
                    (snd (fold_left page_step (enumerate pages) (∅, []))))), s).
Proof.
  intros Hne. unfold validate_handler, bind, get_trained.
  assert (Counter_bool (trained_un_combos s) = true) as ->.
  { destruct (Counter_bool _) eqn:Hb; [done|].
    by apply Counter_bool_false in Hb. }
  reflexivity.
Qed.
End Scoring.

(** C1 (as amended): against a baseline that is not empty, the score of a
    readable candidate is 0 when the candidate counts sum to 0, and
    otherwise [round((unexpected / total) * 100, 2)] in binary64, the
    quotient being rounded before it is multiplied by 100; [unexpected] is
    the sum of the candidate counts of the keys absent from the baseline. *)
Theorem fraud_score_formula (s : session) (pages : list page) :
  trained_un_combos s <> ∅ ->
  exists r,
    validate_handler (Some (Readable pages)) s = (inr (Scored r), s) /\
    let candidate := candidate_combos pages in
    let total := Counter_total candidate in
    let unexpected := unexpected_occurrences candidate (trained_un_combos s) in
    unexpected_used r = unexpected /\
    total_used r = total /\
    fraud_score r =
      if total =? 0 then NInt 0
      else NFloat (float_round
                     (float_mul (int_truediv unexpected total) (float_of_int 100)) 2).
Proof.
  intros Hne. eexists. split; [by apply validate_readable|].
  cbn [score unexpected_used total_used fraud_score].
  rewrite unexpected_used_occurrences. done.
Qed.


(** The claimed formula is not what the script computes: 23 unexpected
    runs out of 160 score 14.37, and
    [round(100 * 23 / 160, 2)] is 14.38. *)
Lemma fraud_score_differs_from_claimed :
  exists r,
    validate_handler (Some tampered_pdf) trained_session
    = (inr (Scored r), trained_session) /\
    unexpected_used r = 23 /\ total_used r = 160 /\
    str_num (fraud_score r) = "14.37" /\
    str_num (claimed_anomaly_percent (candidate_combos tampered_pages)
               (trained_un_combos trained_session)) = "14.38" /\
    fraud_score r
    <> claimed_anomaly_percent (candidate_combos tampered_pages)
         (trained_un_combos trained_session).
Proof.
  eexists. split; [vm_compute; reflexivity|].
  conjuncts; [by_computation..|]. vm_compute. discriminate.
Qed.

Lemma fraud_score_formula_witness :
  exists r,
    validate_handler (Some tampered_pdf) trained_session
    = (inr (Scored r), trained_session) /\
    unexpected_used r = 23 /\ total_used r = 160 /\
    str_num (fraud_score r) = "14.37".
Proof.
  destruct (fraud_score_formula trained_session tampered_pages)
    as (r & Hr & Hu & Ht & Hs).
  { apply Counter_bool_true. vm_compute. reflexivity. }
  exists r. split; [exact Hr|].
  rewrite Hs, Hu, Ht. by_computation.
Defined.

(** ** The handlers *)

(** C2: with an empty baseline the validate handler refuses, whatever the
    test file, and computes no score. *)
Theorem validate_refuses_untrained (s : session) (test_file : option pdf_file) :
  trained_un_combos s = ∅ ->
  validate_handler test_file s = (inr (Refused Warn_train_first), s).
Proof.
  intros Hempty. unfold validate_handler, bind, get_trained.
  by rewrite (proj2 (Counter_bool_false _) Hempty).
Qed.

Lemma validate_refuses_untrained_witness :
  validate_handler (Some tampered_pdf) initial_session
  = (inr (Refused Warn_train_first), initial_session).
Proof. apply validate_refuses_untrained. reflexivity. Defined.

Section Training.

Lemma train_file_readable (pages : list page) (s : session) :
  train_file (Readable pages) s
  = (inr tt, Session (Counter_update (trained_un_combos s) (candidate_combos pages))).
Proof. reflexivity. Qed.

Lemma train_file_unreadable (e : exn) (s : session) :
  train_file (Unreadable e) s = (inl e, s).
Proof. reflexivity. Qed.

(** The loop stops at the first file that does not open, with the
    counts of the files before it added up. *)
Lemma for_each_train (docs : list (list page)) (tail : list pdf_file) (c : Counter) :
  for_each (map Readable docs ++ tail) train_file (Session c)
  = for_each tail train_file
      (Session (fold_left (fun c pages => Counter_update c (candidate_combos pages)) docs c)).
Proof.
  revert c. induction docs as [|pages docs IH]; intros c; [done|].
  cbn [map app for_each fold_left]. unfold bind at 1.
  rewrite train_file_readable. apply IH.
Qed.

Lemma train_handler_nonempty (f : pdf_file) (files : list pdf_file) (s : session) :
  train_handler (f :: files) s
  = match for_each (f :: files) train_file (Session ∅) with
    | (inl e, s') => (inl e, s')
    | (inr _, s') => (inr Success_trained, s')
    end.
Proof.
  unfold train_handler, bind, set_trained, ret.
  by destruct (for_each _ _ _) as [[e|[]] s'].
Qed.

Lemma train_handler_readable (docs : list (list page)) (s : session) :
  docs <> [] ->
  train_handler (map Readable docs) s = (inr Success_trained, Session (aggregate docs)).
Proof.
  destruct docs as [|d docs]; [done|]. intros _.
  cbn [map]. rewrite train_handler_nonempty.
  change (Readable d :: map Readable docs) with (map Readable (d :: docs)).
  rewrite <- (app_nil_r (map Readable (d :: docs))), for_each_train.
  reflexivity.
Qed.
End Training.

(** C3 (as amended): on a list of files that is not empty, training starts
    from an empty mapping, so its outcome does not depend on the prior
    baseline, and on readable files it is their aggregate; with an empty
    list the handler only warns and leaves the session, and so the prior
    baseline, as it was; on every list, training twice in succession gives
    the baseline of training once. *)
Theorem retraining_replaces (files : list pdf_file) (s : session) :
  train_handler [] s = (inr Warn_upload_training, s) /\
  (files <> [] -> forall s', train_handler files s' = train_handler files s) /\
  (forall docs, docs <> [] -> files = map Readable docs ->
     trained_un_combos (snd (train_handler files s)) = aggregate docs) /\
  snd (train_handler files (snd (train_handler files s)))
  = snd (train_handler files s).
Proof.
  assert (files <> [] -> forall s', train_handler files s' = train_handler files s)
    as Hindep.
  { destruct files as [|f files]; [done|]. intros _ s'.
    by rewrite !train_handler_nonempty. }
  split; [reflexivity|]. split; [exact Hindep|]. split.
  - intros docs Hdocs ->. by rewrite train_handler_readable.
  - destruct files as [|f files]; [done|]. by rewrite (Hindep ltac:(done)).
Qed.

Lemma retraining_replaces_witness :
  train_handler [] trained_session = (inr Warn_upload_training, trained_session) /\
  train_handler [genuine_pdf; tampered_pdf] trained_session
  = train_handler [genuine_pdf; tampered_pdf] initial_session /\
  trained_un_combos (snd (train_handler [genuine_pdf; tampered_pdf] initial_session))
  = aggregate [genuine_pages; tampered_pages].
Proof.
  destruct (retraining_replaces [genuine_pdf; tampered_pdf] trained_session)
    as (Hempty & _).
  destruct (retraining_replaces [genuine_pdf; tampered_pdf] initial_session)
    as (_ & Hindep & Hagg & _).
  split; [exact Hempty|]. split.
  - apply Hindep. discriminate.
  - apply Hagg; [discriminate|reflexivity].
Defined.

(** With no file uploaded the handler only warns: the prior baseline is
    neither emptied nor replaced. *)
Lemma training_on_nothing_keeps_baseline :
  train_handler [] trained_session = (inr Warn_upload_training, trained_session) /\
  trained_un_combos (snd (train_handler [] trained_session)) <> aggregate [].
Proof.
  split; [reflexivity|]. apply Counter_bool_true. vm_compute. reflexivity.
Qed.

(** C4 (as amended): when a file does not open, the training call aborts
    with its exception at the first such file, and the session is left
    with the counts of the files before it added up from an empty mapping;
    the prior baseline is gone. *)
Theorem training_aborts_at_unreadable
    (docs : list (list page)) (e : exn) (rest : list pdf_file) (s : session) :
  train_handler (map Readable docs ++ Unreadable e :: rest) s
  = (inl e, Session (aggregate docs)).
Proof.
  destruct docs as [|d docs].
  - reflexivity.
  - cbn [map app]. rewrite train_handler_nonempty.
    change (Readable d :: map Readable docs ++ Unreadable e :: rest)
      with (map Readable (d :: docs) ++ Unreadable e :: rest).
    rewrite for_each_train. reflexivity.
Qed.

(** A failed training leaves a partial aggregate behind: after the
    genuine file and a corrupt one, the session holds what training on the
    genuine file alone gives. *)
Lemma failed_training_leaves_partial_baseline :
  fst (train_handler [genuine_pdf; corrupt_pdf] initial_session)
  = inl (Exn "FileDataError" "Failed to open file") /\
  snd (train_handler [genuine_pdf; corrupt_pdf] initial_session)
  = snd (train_handler [genuine_pdf] initial_session) /\
  trained_un_combos (snd (train_handler [genuine_pdf; corrupt_pdf] initial_session))
  = {[ "12.0_0_Arial_#000000_0.905_-0.212" := 1 ]}.
Proof. by_computation. Qed.


(** C8: against a baseline that is not empty, the score of every readable
    candidate lies between 0 and 100. *)
Theorem anomaly_percent_bounds (s : session) (pages : list page) :
  trained_un_combos s <> ∅ ->
  exists r,
    validate_handler (Some (Readable pages)) s = (inr (Scored r), s) /\
    num_le (NInt 0) (fraud_score r) = true /\
    num_le (fraud_score r) (NInt 100) = true.
Proof.
  intros Hne. eexists. split; [by apply validate_readable|].
  cbn [score fraud_score]. rewrite unexpected_used_occurrences.
  apply compute_fraud_score_bounds, unexpected_occurrences_bounds.
  intros k v. apply Counter_add_positive.
Qed.

Lemma anomaly_percent_bounds_witness :
  exists r,
    validate_handler (Some tampered_pdf) trained_session
    = (inr (Scored r), trained_session) /\
    num_le (NInt 0) (fraud_score r) = true /\
    num_le (fraud_score r) (NInt 100) = true.
Proof.
  apply (anomaly_percent_bounds trained_session tampered_pages).
  apply Counter_bool_true. vm_compute. reflexivity.
Defined.

(** ** Extraction *)
Section ExtractionFacts.

Lemma fold_left_map_ext {A X : Type} (f : A -> X -> A) (g : X -> X) (xs : list X) :
  (forall a x, f a (g x) = f a x) ->
  forall a, fold_left f (map g xs) a = fold_left f xs a.
Proof.
  intros Hfg. induction xs as [|x xs IH]; intros a; [done|].
  cbn [map fold_left]. by rewrite Hfg, IH.
Qed.

Lemma span_step_blank (page_num : Z) (acc : Counter * list detail) (sp : span) :
  is_blank sp = true -> span_step page_num acc sp = acc.
Proof.
  unfold is_blank, span_step. destruct acc as [combos detailed_chars].
  by intros ->.
Qed.

Lemma fold_span_step_filter (page_num : Z) (spans : list span) :
  forall acc,
    fold_left (span_step page_num) (filter (fun sp => is_blank sp = false) spans) acc
    = fold_left (span_step page_num) spans acc.
Proof.
  induction spans as [|sp spans IH]; intros acc; [done|].
  rewrite filter_cons. destruct (decide (is_blank sp = false)) as [Hb|Hb].
  - cbn [fold_left]. apply IH.
  - cbn [fold_left]. apply not_false_is_true in Hb.
    by rewrite (span_step_blank _ _ _ Hb).
Qed.

Lemma line_step_drop_blank (page_num : Z) (acc : Counter * list detail) (l : line) :
  line_step page_num acc (drop_blank_line l) = line_step page_num acc l.
Proof.
  unfold line_step, drop_blank_line. destruct (line_spans l) as [spans|]; [|done].
  apply fold_span_step_filter.
Qed.

Lemma block_step_drop_blank (page_num : Z) (acc : Counter * list detail) (b : block) :
  block_step page_num acc (drop_blank_block b) = block_step page_num acc b.
Proof.
  unfold block_step, drop_blank_block. destruct (block_lines b) as [lines|]; [|done].
  apply fold_left_map_ext. intros. apply line_step_drop_blank.
Qed.

Lemma page_step_drop_blank (acc : Counter * list detail) (i : Z) (p : page) :
  page_step acc (i, drop_blank_page p) = page_step acc (i, p).
Proof.
  unfold page_step, drop_blank_page. cbn [fst snd page_blocks].
  apply fold_left_map_ext. intros. apply block_step_drop_blank.
Qed.

Lemma fold_page_step_drop_blank (pages : list page) :
  forall i acc,
    fold_left page_step (enumerate_from i (map drop_blank_page pages)) acc
    = fold_left page_step (enumerate_from i pages) acc.
Proof.
  induction pages as [|p pages IH]; intros i acc; [done|].
  cbn [map enumerate_from fold_left]. by rewrite page_step_drop_blank, IH.
Qed.
End ExtractionFacts.

(** C6: the spans whose text is empty once stripped contribute nothing:
    taking them all out of a document changes neither the frequency
    mapping nor the list of spans, and a blank span leaves both
    accumulators of the loop as they are. *)
Theorem blank_spans_contribute_nothing (pages : list page) :
  extract_formatting_combos (Readable (map drop_blank_page pages))
  = extract_formatting_combos (Readable pages) /\
  (forall page_num acc sp, is_blank sp = true -> span_step page_num acc sp = acc).
Proof.
  split.
  - unfold extract_formatting_combos, fitz_open, enumerate.
    by rewrite fold_page_step_drop_blank.
  - intros. by apply span_step_blank.
Qed.

Lemma blank_spans_contribute_nothing_witness :
  extract_formatting_combos (Readable [one_line_page [blank_span; arial_12_black]])
  = extract_formatting_combos (Readable [one_line_page [arial_12_black]]) /\
  span_step 0 (∅, []) blank_span = (∅, []).
Proof.
  destruct (blank_spans_contribute_nothing
              [one_line_page [blank_span; arial_12_black]]) as [Hdoc Hstep].
  split.
  - symmetry. exact Hdoc.
  - apply Hstep. reflexivity.
Defined.

Section Frequencies.
Implicit Types c : gmap string Z.

Lemma Counter_incr_lookup c k' k :
  Counter_incr c k' !! k
  = if decide (k = k') then Some (Counter_get c k + 1) else c !! k.
Proof.
  unfold Counter_incr. destruct (decide (k = k')) as [->|Hne].
  - by rewrite lookup_insert_eq.
  - by rewrite lookup_insert_ne.
Qed.

Lemma key_occurrences_cons k k' ks :
  key_occurrences k (k' :: ks)
  = (if decide (k' = k) then 1 else 0) + key_occurrences k ks.
Proof.
  unfold key_occurrences. rewrite filter_cons.
  destruct (decide (k' = k)); cbn [length]; lia.
Qed.

Lemma key_occurrences_notin k ks : k ∉ ks -> key_occurrences k ks = 0.
Proof.
  induction ks as [|k' ks IH]; [done|].
  rewrite not_elem_of_cons. intros [Hne Hnin].
  rewrite key_occurrences_cons, decide_False by done. by rewrite IH.
Qed.

Lemma Counter_get_incr c k' k :
  Counter_get (Counter_incr c k') k
  = Counter_get c k + (if decide (k' = k) then 1 else 0).
Proof.
  unfold Counter_get at 1. rewrite Counter_incr_lookup.
  destruct (decide (k = k')) as [->|Hne].
  - by rewrite decide_True.
  - rewrite decide_False by done. unfold Counter_get. lia.
Qed.

(** Counting keys one by one gives each key its number of occurrences. *)
Lemma fold_incr_lookup ks : forall c k,
  fold_left Counter_incr ks c !! k
  = if decide (k ∈ ks) then Some (Counter_get c k + key_occurrences k ks)
    else c !! k.
Proof.
  induction ks as [|k' ks IH]; intros c k.
  - cbn [fold_left]. by rewrite decide_False by apply not_elem_of_nil.
  - cbn [fold_left].
    rewrite IH, key_occurrences_cons, Counter_get_incr, Counter_incr_lookup.
    pose proof (elem_of_cons ks k k') as Hcons.
    pose proof (key_occurrences_notin k ks) as Hzero.
    destruct (decide (k ∈ ks)), (decide (k' = k)), (decide (k = k')),
      (decide (k ∈ k' :: ks)); subst; try tauto; try done;
      rewrite ?Hzero by done; f_equal; lia.
Qed.

Lemma fold_incr_frequencies ks k :
  fold_left Counter_incr ks ∅ !! k = frequencies ks k.
Proof.
  rewrite fold_incr_lookup. unfold frequencies, Counter_get.
  rewrite lookup_empty. by destruct (decide (k ∈ ks)).
Qed.

(** A loop whose step counts and appends the entries [g x] of each [x]
    counts and appends the entries of all of them, in order. *)
Lemma fold_details {X : Type}
    (step : Counter * list detail -> X -> Counter * list detail)
    (g : X -> list detail) :
  (forall c ds x,
     step (c, ds) x = (fold_left Counter_incr (d_un_com <$> g x) c, ds ++ g x)) ->
  forall xs c ds,
    fold_left step xs (c, ds)
    = (fold_left Counter_incr (d_un_com <$> (xs ≫= g)) c, ds ++ (xs ≫= g)).
Proof.
  intros Hstep. induction xs as [|x xs IH]; intros c ds.
  - cbn. by rewrite app_nil_r.
  - cbn [fold_left]. rewrite Hstep, IH, bind_cons, fmap_app, fold_left_app.
    by rewrite app_assoc.
Qed.

Lemma span_step_details (page_num : Z) c ds (sp : span) :
  span_step page_num (c, ds) sp
  = (fold_left Counter_incr (d_un_com <$> span_details page_num sp) c,
     ds ++ span_details page_num sp).
Proof.
  unfold span_step, span_details, is_blank.
  destruct (str_is_empty _); [by rewrite app_nil_r|done].
Qed.

Lemma line_step_details (page_num : Z) c ds (l : line) :
  line_step page_num (c, ds) l
  = (fold_left Counter_incr (d_un_com <$> line_details page_num l) c,
     ds ++ line_details page_num l).
Proof. apply fold_details. intros. apply span_step_details. Qed.

Lemma block_step_details (page_num : Z) c ds (b : block) :
  block_step page_num (c, ds) b
  = (fold_left Counter_incr (d_un_com <$> block_details page_num b) c,
     ds ++ block_details page_num b).
Proof. apply fold_details. intros. apply line_step_details. Qed.

Lemma page_step_details c ds (ip : Z * page) :
  page_step (c, ds) ip
  = (fold_left Counter_incr (d_un_com <$> page_details ip) c,
     ds ++ page_details ip).
Proof. apply fold_details. intros. apply block_step_details. Qed.

Lemma text_extraction (pages : list page) :
  fold_left page_step (enumerate pages) (∅, [])
  = (fold_left Counter_incr (d_un_com <$> spans_in_order pages) ∅,
     spans_in_order pages).
Proof.
  unfold spans_in_order.
  by rewrite (fold_details page_step page_details page_step_details).
Qed.

Lemma image_extraction (pages : list page) : forall c,
  fold_left image_page_step pages c = fold_left Counter_incr (image_keys pages) c.
Proof.
  unfold image_keys. induction pages as [|p pages IH]; intros c; [done|].
  cbn [fold_left]. rewrite IH, bind_cons, fold_left_app. f_equal.
  unfold image_page_step. generalize (page_images p) c.
  induction l as [|b bs IHb]; intros c'; [done|].
  cbn [fold_left fmap list_fmap]. by rewrite IHb.
Qed.
End Frequencies.

(** ** Runs of the extractors on the objects of the interpreter *)
Section ObjectRuns.
Implicit Types w : Objects.world.

Lemma for_each_fold {X A : Type} (put : A -> Objects.world)
    (body : X -> Objects.W unit) (step : A -> X -> A) (xs : list X) :
  (forall acc x, body x (put acc) = (inr tt, put (step acc x))) ->
  forall acc,
    Objects.for_each xs body (put acc) = (inr tt, put (fold_left step xs acc)).
Proof.
  intros Hbody. induction xs as [|x xs IH]; intros acc; [done|].
  cbn [Objects.for_each fold_left]. unfold Objects.bind.
  by rewrite Hbody, IH.
Qed.

Lemma heap_overwrite (h : gmap positive Objects.object) (lc ld : positive)
    (a a' b b' : Objects.object) :
  lc <> ld ->
  <[ld := b']> (<[lc := a']> (<[ld := b]> (<[lc := a]> h)))
  = <[ld := b']> (<[lc := a']> h).
Proof.
  intros Hne. apply map_eq. intros i.
  destruct (decide (i = ld)) as [->|Hld]; [by rewrite !lookup_insert_eq|].
  rewrite !(lookup_insert_ne _ ld) by done.
  destruct (decide (i = lc)) as [->|Hlc]; [by rewrite !lookup_insert_eq|].
  by rewrite !lookup_insert_ne by done.
Qed.

Lemma span_body_step w (combos detailed_chars : positive) (page_num : Z)
    (acc : Counter * list detail) (sp : span) :
  combos <> detailed_chars ->
  Objects.span_body combos detailed_chars page_num sp
    (Objects.holding w combos detailed_chars acc)
  = (inr tt, Objects.holding w combos detailed_chars (span_step page_num acc sp)).
Proof.
  intros Hne. destruct acc as [c ds].
  unfold Objects.span_body, span_step.
  destruct (str_is_empty (strip (default "" (span_text sp)))); [done|].
  unfold Objects.bind, Objects.incr_at, Objects.append_at, Objects.holding.
  cbn [Objects.heap Objects.disk fst snd].
  rewrite lookup_insert_ne, lookup_insert_eq by done.
  cbn [Objects.heap Objects.disk].
  rewrite lookup_insert_ne, lookup_insert_eq by done.
  f_equal. f_equal. by apply heap_overwrite.
Qed.

Lemma incr_at_step w (combos : positive) (c : Counter) (k : string) :
  Objects.incr_at combos k (Objects.holding_counter w combos c)
  = (inr tt, Objects.holding_counter w combos (Counter_incr c k)).
Proof.
  unfold Objects.incr_at, Objects.holding_counter. cbn [Objects.heap Objects.disk].
  by rewrite lookup_insert_eq, insert_insert_eq.
Qed.

(** A run of the text extractor creates two objects and leaves them
    holding what the loops compute from empty ones. *)
Lemma text_run w (pdf_path : string) (pages : list page) :
  Objects.disk w pdf_path = Readable pages ->
  exists combos detailed_chars,
    Objects.extract_formatting_combos pdf_path w
    = (inr (combos, detailed_chars),
       Objects.holding w combos detailed_chars
         (fold_left page_step (enumerate pages) (∅, []))) /\
    combos <> detailed_chars /\
    (combos ∉ dom (Objects.heap w)) /\ (detailed_chars ∉ dom (Objects.heap w)).
Proof.
  intros Hdisk.
  set (lc := fresh (dom (Objects.heap w))).
  set (ld := fresh (dom (<[lc := Objects.OCounter ∅]> (Objects.heap w)))).
  assert (lc ∉ dom (Objects.heap w)) as Hlc by apply is_fresh.
  assert (ld ∉ dom (<[lc := Objects.OCounter ∅]> (Objects.heap w))) as Hld
    by apply is_fresh.
  rewrite dom_insert in Hld.
  apply not_elem_of_union in Hld as [Hne%not_elem_of_singleton Hld].
  exists lc, ld. split; [|by repeat split].
  unfold Objects.extract_formatting_combos, Objects.bind at 1 2 3.
  unfold Objects.alloc, Objects.open_path. cbn [Objects.heap Objects.disk].
  fold lc. fold ld. rewrite Hdisk. cbn [fitz_open].
  change (Objects.World (Objects.disk w)
            (<[ld := Objects.OList []]> (<[lc := Objects.OCounter ∅]> (Objects.heap w))))
    with (Objects.holding w lc ld (∅, [])).
  unfold Objects.bind.
  rewrite (for_each_fold (Objects.holding w lc ld) _ page_step); [done|].
  intros acc ip. unfold page_step.
  apply (for_each_fold (Objects.holding w lc ld) _ (block_step ip.1)).
  intros acc' b. unfold block_step.
  apply (for_each_fold (Objects.holding w lc ld) _ (line_step ip.1)).
  intros acc'' l. unfold line_step.
  apply (for_each_fold (Objects.holding w lc ld) _ (span_step ip.1)).
  intros acc''' sp. by apply span_body_step.
Qed.

Lemma image_run w (pdf_path : string) (pages : list page) :
  Objects.disk w pdf_path = Readable pages ->
  exists combos,
    Objects.extract_image_combos pdf_path w
    = (inr combos,
       Objects.holding_counter w combos (fold_left image_page_step pages ∅)) /\
    combos ∉ dom (Objects.heap w).
Proof.
  intros Hdisk.
  set (li := fresh (dom (Objects.heap w))).
  exists li. split; [|apply is_fresh].
  unfold Objects.extract_image_combos, Objects.bind at 1 2.
  unfold Objects.alloc, Objects.open_path. cbn [Objects.heap Objects.disk].
  fold li. rewrite Hdisk. cbn [fitz_open].
  change (Objects.World (Objects.disk w)
            (<[li := Objects.OCounter ∅]> (Objects.heap w)))
    with (Objects.holding_counter w li ∅).
  unfold Objects.bind.
  rewrite (for_each_fold (Objects.holding_counter w li) _ image_page_step); [done|].
  intros c p. unfold image_page_step.
  apply (for_each_fold (Objects.holding_counter w li) _ image_step).
  intros c' base. apply incr_at_step.
Qed.

(** One run of both extractors: three new objects, holding what the
    extractors compute, beside the objects that were there. *)
Lemma both_run w (pdf_path : string) (pages : list page) :
  Objects.disk w pdf_path = Readable pages ->
  exists r w',
    Objects.extract_both pdf_path w = (inr r, w') /\
    Objects.disk w' = Objects.disk w /\
    NoDup (Objects.addresses r) /\
    (forall l, l ∈ Objects.addresses r -> l ∉ dom (Objects.heap w)) /\
    (forall l, l ∉ Objects.addresses r ->
       Objects.heap w' !! l = Objects.heap w !! l) /\
    Objects.result_at w' r
    = Some (fold_left page_step (enumerate pages) (∅, []),
            fold_left image_page_step pages ∅).
Proof.
  intros Hdisk.
  destruct (text_run w pdf_path pages Hdisk) as (lc & ld & Htext & Hne & Hlc & Hld).
  set (w1 := Objects.holding w lc ld (fold_left page_step (enumerate pages) (∅, []))) in *.
  destruct (image_run w1 pdf_path pages Hdisk) as (li & Himage & Hli).
  exists (lc, ld, li). eexists.
  unfold Objects.extract_both, Objects.bind. rewrite Htext, Himage.
  split; [reflexivity|]. split; [done|].
  subst w1. unfold Objects.holding in Hli. cbn [Objects.heap] in Hli.
  rewrite !dom_insert in Hli.
  apply not_elem_of_union in Hli as [Hli_ld%not_elem_of_singleton Hli].
  apply not_elem_of_union in Hli as [Hli_lc%not_elem_of_singleton Hli].
  unfold Objects.addresses, Objects.result_at, Objects.holding_counter, Objects.holding.
  cbn [Objects.heap fst snd].
  split; [|split; [|split]].
  - repeat (apply NoDup_cons; split); [..|apply NoDup_nil_2];
      rewrite ?not_elem_of_cons; repeat split; try done; apply not_elem_of_nil.
  - intros l Hl. repeat (apply elem_of_cons in Hl as [->|Hl]; [done|]).
    by apply not_elem_of_nil in Hl.
  - intros l Hl. rewrite !not_elem_of_cons in Hl. destruct Hl as (H1 & H2 & H3 & _).
    by rewrite !lookup_insert_ne by done.
  - rewrite (lookup_insert_ne _ li lc), (lookup_insert_ne _ ld lc), lookup_insert_eq by done.
    rewrite (lookup_insert_ne _ li ld), lookup_insert_eq by done.
    rewrite lookup_insert_eq.
    by destruct (fold_left page_step (enumerate pages) (∅, [])).
Qed.

End ObjectRuns.

(** C9: extraction is deterministic. Whatever objects the interpreter
    already holds, two runs of the two extractors on the same path, one
    after the other, end with the same frequency mappings (equal as
    mappings, whatever the order of their keys) and the same list of spans
    in the same order: what the text and the image extractor compute from
    the pages alone. Each run builds its result in objects of its own: the
    six objects are distinct and new, so the second run neither
    accumulates on the first nor disturbs it, and no run changes an object
    that was there before or a file. On a file that does not open the runs
    raise its exception. *)
Theorem extraction_deterministic (pdf_path : string) (w : Objects.world) :
  match Objects.disk w pdf_path with
  | Unreadable e => fst (Objects.extract_twice pdf_path w) = inl e
  | Readable pages =>
      exists first second w' tc ds ic,
        Objects.extract_twice pdf_path w = (inr (first, second), w') /\
        extract_formatting_combos (Readable pages) = inr (tc, ds) /\
        extract_image_combos (Readable pages) = inr ic /\
        Objects.result_at w' first = Some (tc, ds, ic) /\
        Objects.result_at w' second = Some (tc, ds, ic) /\
        NoDup (Objects.addresses first ++ Objects.addresses second) /\
        (forall l, l ∈ dom (Objects.heap w) ->
           (l ∉ Objects.addresses first ++ Objects.addresses second) /\
           Objects.heap w' !! l = Objects.heap w !! l) /\
        Objects.disk w' = Objects.disk w
  end.
Proof.
  destruct (Objects.disk w pdf_path) as [e|pages] eqn:Hdisk.
  - unfold Objects.extract_twice, Objects.extract_both,
      Objects.extract_formatting_combos, Objects.bind, Objects.alloc,
      Objects.open_path.
    cbn [Objects.disk Objects.heap]. by rewrite Hdisk.
  - destruct (both_run w pdf_path pages Hdisk)
      as (first & w1 & Hrun1 & Hdisk1 & Hnodup1 & Hnew1 & Hframe1 & Hres1).
    assert (Objects.disk w1 pdf_path = Readable pages) as Hdisk'
      by (by rewrite Hdisk1).
    destruct (both_run w1 pdf_path pages Hdisk')
      as (second & w2 & Hrun2 & Hdisk2 & Hnodup2 & Hnew2 & Hframe2 & Hres2).
    destruct (fold_left page_step (enumerate pages) (∅, [])) as [tc ds] eqn:Htext.
    exists first, second, w2, tc, ds, (fold_left image_page_step pages ∅).
    assert (forall l, l ∈ Objects.addresses first -> l ∈ dom (Objects.heap w1))
      as Hheld.
    { intros l Hl. apply elem_of_dom. revert Hres1 Hl.
      unfold Objects.result_at, Objects.addresses.
      destruct (Objects.heap w1 !! first.1.1) as [[]|] eqn:H1; try done.
      destruct (Objects.heap w1 !! first.1.2) as [[]|] eqn:H2; try done.
      destruct (Objects.heap w1 !! first.2) as [[]|] eqn:H3; try done.
      intros _ Hl.
      repeat (apply elem_of_cons in Hl as [->|Hl]; [by eexists|]).
      by apply not_elem_of_nil in Hl. }
    assert (forall l, l ∈ Objects.addresses first -> l ∉ Objects.addresses second)
      as Hapart.
    { intros l Hl Hl'. by apply (Hnew2 l Hl'), Hheld. }
    split.
    { unfold Objects.extract_twice, Objects.bind. by rewrite Hrun1, Hrun2. }
    split; [unfold extract_formatting_combos; cbn [fitz_open]; by rewrite Htext|].
    split; [done|]. split.
    { rewrite <- Hres1. unfold Objects.result_at.
      rewrite !Hframe2; [done|apply Hapart..];
        unfold Objects.addresses; rewrite !elem_of_cons; tauto. }
    split; [done|]. split.
    { apply NoDup_app. split; [done|]. split; [exact Hapart|done]. }
    split; [|by rewrite Hdisk2].
    intros l Hl.
    assert (l ∉ Objects.addresses first) as Hl1 by (intros H; by apply (Hnew1 l H)).
    assert (l ∉ Objects.addresses second) as Hl2.
    { intros H. apply (Hnew2 l H). apply elem_of_dom.
      rewrite Hframe1 by done. by apply elem_of_dom. }
    split; [rewrite elem_of_app; tauto|].
    by rewrite Hframe2, Hframe1.
Qed.


(** ** Signature keys *)
Section Keys.

Lemma text_head_app (s t : string) : text_head s -> text_head (s +:+ t).
Proof. by destruct s. Qed.

Lemma text_head_app_empty (s t : string) :
  not_image_head s -> text_head t -> text_head (s +:+ t).
Proof. by destruct s. Qed.

Lemma pretty_N_char_not_I (x : N) : pretty_N_char x <> "I"%char.
Proof. unfold pretty_N_char. by repeat case_match. Qed.

Lemma pretty_N_go_head (x : N) : forall s,
  text_head s -> text_head (pretty_N_go x s).
Proof.
  induction (N.lt_wf_0 x) as [x _ IH]; intros s Hs.
  destruct (decide (x = 0)%N) as [->|Hx]; [by rewrite pretty_N_go_0|].
  rewrite pretty_N_go_step by lia.
  apply IH; [apply N.div_lt; lia|]. apply pretty_N_char_not_I.
Qed.

Lemma pretty_N_head (x : N) : text_head (pretty x).
Proof.
  unfold pretty, pretty_N. case_decide; [done|].
  rewrite pretty_N_go_step by lia.
  apply pretty_N_go_head, pretty_N_char_not_I.
Qed.

Lemma str_int_head (z : Z) : text_head (str_int z).
Proof.
  unfold str_int, pretty, pretty_Z. destruct z as [|p|p]; [done| |done].
  apply pretty_N_head.
Qed.

Lemma format_repr_head (ds : string) (decpt : Z) :
  not_image_head ds -> text_head (format_repr ds decpt).
Proof.
  intros Hds. unfold format_repr.
  destruct (_ || _).
  - apply text_head_app. by destruct ds as [|c [|c' rest]].
  - destruct (decpt <=? 0) eqn:Hdec; [done|].
    apply Z.leb_gt in Hdec.
    destruct (_ <=? _)%nat.
    + apply text_head_app_empty; [done|].
      apply text_head_app_empty; [|done]. by destruct (_ - _)%nat.
    + apply text_head_app_empty; [|done].
      destruct (Z.to_nat decpt) as [|n] eqn:Hn; [lia|].
      by destruct ds.
Qed.

Lemma shortest_digits_head (m : positive) (e : Z) :
  not_image_head (shortest_digits m e).1.
Proof.
  unfold shortest_digits.
  destruct (shortest_from _ _ _ _ _) as [d p].
  destruct (strip_zeros _ _ _) as [d' p']. cbn [fst].
  pose proof (str_int_head d') as Hd. unfold str_int in Hd.
  by destruct (pretty d').
Qed.

Lemma float_repr_head (x : float) : text_head (float_repr x).
Proof.
  destruct x as [[]|[]| |s m e]; try done.
  unfold float_repr.
  pose proof (shortest_digits_head m e) as Hds.
  destruct (shortest_digits m e) as [ds decpt]. cbn [fst] in Hds.
  apply text_head_app_empty; [by destruct s|].
  by apply format_repr_head.
Qed.

Lemma str_num_head (n : num) : text_head (str_num n).
Proof. destruct n; [apply str_int_head|apply float_repr_head]. Qed.

(** A text key begins with the size, a number. *)
Lemma span_un_com_head (sp : span) : text_head (span_un_com sp).
Proof. unfold span_un_com. apply text_head_app, str_num_head. Qed.
End Keys.

(** C5 (as amended): extraction of a readable file does not fail, and an
    absent field of a span reads as its sentinel: the font as "Unknown",
    the size, the colour, the ascender and the descender as 0, the
    bounding box as empty; absent style flags print as the empty string.
    The key is the six parts joined by the delimiter. *)
Theorem absent_fields_read_as_sentinels (sp : span) (pages : list page) :
  span_un_com sp = join "_" (span_key_parts sp) /\
  span_un_com (script_sentinels sp) = span_un_com sp /\
  (forall page_num acc,
     span_step page_num acc (script_sentinels sp) = span_step page_num acc sp) /\
  exists r, extract_formatting_combos (Readable pages) = inr r.
Proof.
  split; [|split; [|split]].
  - unfold span_un_com, span_key_parts. by destruct (span_flags sp).
  - by destruct sp as [t [f|] [sz|] [col|] fl [a|] [d|] bb].
  - intros page_num acc.
    by destruct sp as [t [f|] [sz|] [col|] fl [a|] [d|] [bb|]].
  - by eexists.
Qed.

(** Absent style flags do not read as 0: the key of a span of which only
    the text is there has an empty flags part. *)
Lemma absent_flags_are_not_zero :
  span_un_com bare_span = "0__Unknown_#000000_0_0" /\
  span_un_com (claimed_sentinels bare_span) = "0_0_Unknown_#000000_0_0" /\
  span_un_com bare_span <> span_un_com (claimed_sentinels bare_span).
Proof. conjuncts; [by_computation..|]. vm_compute. discriminate. Qed.

(** C7 (as amended): the key of an image is the prefix "IMG_" and, joined
    by "_", the width, the height, the format extension, the colorspace,
    two constant fields "0", the bit depth and the byte length; no text
    key equals it. *)
Theorem image_key_layout (base : base_image) (sp : span) :
  image_un_comb base = "IMG_" +:+ join "_" (image_key_parts base) /\
  image_un_comb base <> span_un_com sp.
Proof.
  split.
  - unfold image_un_comb, image_key_parts, image_fields.
    by destruct (img_colorspace base).
  - intros Heq. pose proof (span_un_com_head sp) as Hhead.
    rewrite <- Heq in Hhead. by apply Hhead.
Qed.

(** The key is not the prefix and the six fields alone. *)
Lemma image_key_has_constant_fields :
  image_un_comb png_image = "IMG_10_20_png_3_0_0_8_0" /\
  claimed_image_key png_image = "IMG_10_20_png_3_8_0" /\
  image_un_comb png_image <> claimed_image_key png_image.
Proof. conjuncts; [by_computation..|]. vm_compute. discriminate. Qed.


(** ** The metadata analyzer *)
Section AnalyzerFacts.
Variable datetime : Type.
Variable basename : string -> string.
Variable read_metadata : string -> exn + metadata.
Variable json_dumps : gmap string meta_value -> exn + string.
Variable strptime14 : string -> option datetime.
Variable strftime : datetime -> string.
Variable datetime_gt : datetime -> datetime -> bool.

Let body := analyze_body datetime basename read_metadata json_dumps
              strptime14 strftime datetime_gt.
Let analyze := analyze_pdf datetime basename read_metadata json_dumps
                 strptime14 strftime datetime_gt.

(** C10 (as amended): [analyze_pdf] returns a result for every path and
    raises nothing. What the body returns it returns; when the body
    raises, it returns the record with [Edited] at [None], the reasons
    "Error: " and the message, the file name still the base name of the
    path, and every other field at its empty default. *)
Theorem analyze_pdf_total (file_path : string) :
  (exists r, analyze file_path = inr r) /\
  (forall r, body file_path = inr r -> analyze file_path = inr r) /\
  (forall e, body file_path = inl e ->
     exists r, analyze file_path = inr r /\
       File_Name r = basename file_path /\
       Edited r = None /\
       Reasons r = "Error: " +:+ exn_message e /\
       Creation_Date r = "" /\ Modification_Date r = "" /\
       Producer r = MText "" /\ Creator r = MText "" /\ Title r = MText "" /\
       Full_Metadata r = "{}").
Proof.
  subst body analyze. unfold analyze_pdf, try_except.
  destruct (analyze_body _ _ _ _ _ _ _ file_path) as [e|r].
  - split; [by eexists|]. split; [done|].
    intros e' [= <-]. eexists. split; [done|]. by repeat split.
  - split; [by eexists|]. split; [done|]. done.
Qed.
End AnalyzerFacts.

Lemma analyze_pdf_total_witness :
  exists r, analyze_missing "uploads/report.pdf" = inr r /\
    File_Name r = "report.pdf" /\ Edited r = None /\
    Reasons r = "Error: No such file".
Proof.
  destruct (analyze_pdf_total unit posix_basename no_file (fun _ => inr "{}")
              (fun _ => None) (fun _ => "") (fun _ _ => false)
              "uploads/report.pdf") as (_ & _ & Herr).
  destruct (Herr (Exn "FileNotFoundError" "No such file") eq_refl)
    as (r & Hr & Hname & Hedited & Hreasons & _).
  exists r. split; [exact Hr|]. split; [exact Hname|]. split; [exact Hedited|].
  exact Hreasons.
Defined.

(** The record of a failure still names the file: not every field other
    than [Edited] and [Reasons] is at an empty default. *)
Lemma error_result_names_the_file :
  exists r, analyze_missing "uploads/report.pdf" = inr r /\
    Edited r = None /\ File_Name r = "report.pdf" /\ File_Name r <> "".
Proof. eexists. split; [reflexivity|]. by repeat split. Qed.

(** * Further properties *)
Import Derived Samples.

(** * Further properties of the format validation *)

(** ** Sums of counters *)
Section CounterSums.
Implicit Types c m : gmap string Z.

Lemma Counter_total_insert_any m k v :
  Counter_total (<[k:=v]> m) = Counter_total m - Counter_get m k + v.
Proof.
  unfold Counter_get. destruct (m !! k) as [w|] eqn:Hk; simpl.
  - rewrite <- (insert_delete_id m k w Hk) at 2.
    rewrite <- insert_delete_eq.
    rewrite !Counter_total_insert by apply lookup_delete_eq. lia.
  - rewrite Counter_total_insert by done. lia.
Qed.

Lemma Counter_total_incr m k : Counter_total (Counter_incr m k) = Counter_total m + 1.
Proof. unfold Counter_incr. rewrite Counter_total_insert_any. lia. Qed.

Lemma Counter_update_empty c : Counter_update c ∅ = c.
Proof.
  apply map_eq. intros i. unfold Counter_update.
  rewrite lookup_union_with, lookup_empty. by destruct (c !! i).
Qed.

Lemma Counter_update_lookup c1 c2 k :
  Counter_update c1 c2 !! k
  = match c1 !! k, c2 !! k with
    | Some x, Some y => Some (x + y)
    | Some x, None => Some x
    | None, o => o
    end.
Proof.
  unfold Counter_update. rewrite lookup_union_with.
  by destruct (c1 !! k), (c2 !! k).
Qed.

Lemma Counter_get_update c1 c2 k :
  Counter_get (Counter_update c1 c2) k = Counter_get c1 k + Counter_get c2 k.
Proof.
  unfold Counter_get. rewrite Counter_update_lookup.
  destruct (c1 !! k), (c2 !! k); simpl; lia.
Qed.

Lemma Counter_update_insert c m k v :
  m !! k = None ->
  Counter_update c (<[k:=v]> m) = <[k := Counter_get c k + v]> (Counter_update c m).
Proof.
  intros Hk. apply map_eq. intros i.
  rewrite Counter_update_lookup.
  destruct (decide (i = k)) as [->|Hne].
  - rewrite !lookup_insert_eq. unfold Counter_get.
    by destruct (c !! k).
  - rewrite !lookup_insert_ne by done. by rewrite Counter_update_lookup.
Qed.

(** [update] adds the totals. *)
Lemma Counter_total_update c1 c2 :
  Counter_total (Counter_update c1 c2) = Counter_total c1 + Counter_total c2.
Proof.
  induction c2 as [|k v m Hk IH] using map_ind.
  - rewrite Counter_update_empty, Counter_total_empty. lia.
  - rewrite Counter_update_insert by done.
    rewrite Counter_total_insert_any, Counter_get_update, IH.
    rewrite Counter_total_insert by done.
    unfold Counter_get at 2. rewrite Hk. simpl. lia.
Qed.

(** On counters of positive counts, [+] is [update]. *)
Lemma Counter_add_update c1 c2 :
  (forall k v, c1 !! k = Some v -> 0 < v) ->
  (forall k v, c2 !! k = Some v -> 0 < v) ->
  Counter_add c1 c2 = Counter_update c1 c2.
Proof.
  intros H1 H2. apply map_eq. intros i.
  unfold Counter_add. rewrite lookup_merge, Counter_update_lookup.
  specialize (H1 i). specialize (H2 i).
  destruct (c1 !! i) as [x|], (c2 !! i) as [y|]; simpl; [| | |done];
    unfold keep_positive.
  - specialize (H1 x eq_refl). specialize (H2 y eq_refl).
    destruct (0 <? x + y) eqn:E; [done|]. apply Z.ltb_ge in E. lia.
  - specialize (H1 x eq_refl).
    destruct (0 <? x) eqn:E; [done|]. apply Z.ltb_ge in E. lia.
  - specialize (H2 y eq_refl).
    destruct (0 <? y) eqn:E; [done|]. apply Z.ltb_ge in E. lia.
Qed.

Lemma key_occurrences_pos k ks : k ∈ ks -> 1 <= key_occurrences k ks.
Proof.
  induction ks as [|k' ks IH]; intros Hin.
  - by apply not_elem_of_nil in Hin.
  - rewrite key_occurrences_cons.
    assert (0 <= key_occurrences k ks) by (unfold key_occurrences; lia).
    destruct (decide (k' = k)) as [->|Hne]; [lia|].
    apply elem_of_cons in Hin as [->|Hin]; [done|].
    specialize (IH Hin). lia.
Qed.

(** Counting keys gives positive counts. *)
Lemma fold_incr_positive ks k v :
  fold_left Counter_incr ks ∅ !! k = Some v -> 0 < v.
Proof.
  rewrite fold_incr_frequencies. unfold frequencies.
  destruct (decide (k ∈ ks)) as [Hin|]; [|done].
  intros [= <-]. apply key_occurrences_pos in Hin. lia.
Qed.

Lemma fold_incr_total ks : forall c,
  Counter_total (fold_left Counter_incr ks c)
  = Counter_total c + Z.of_nat (length ks).
Proof.
  induction ks as [|k ks IH]; intros c; simpl; [lia|].
  rewrite IH, Counter_total_incr. lia.
Qed.

(** *** Keeping the keys of a kind *)
Section KeyFilter.
Variable P : string -> Prop.
Context `{!forall k, Decision (P k)}.

Lemma key_filter_lookup m k :
  filter (fun kv : string * Z => P kv.1) m !! k
  = if decide (P k) then m !! k else None.
Proof.
  rewrite map_lookup_filter.
  destruct (m !! k) as [v|]; simpl; [|by destruct (decide (P k))].
  destruct (decide (P k)) as [Hp|Hn].
  - by rewrite option_guard_True.
  - by rewrite option_guard_False.
Qed.

Lemma key_filter_incr m k :
  filter (fun kv : string * Z => P kv.1) (Counter_incr m k)
  = if decide (P k)
    then Counter_incr (filter (fun kv : string * Z => P kv.1) m) k
    else filter (fun kv : string * Z => P kv.1) m.
Proof.
  apply map_eq. intros j. rewrite key_filter_lookup.
  destruct (decide (P k)) as [Hk|Hk].
  - rewrite !Counter_incr_lookup, key_filter_lookup.
    unfold Counter_get. rewrite key_filter_lookup.
    destruct (decide (j = k)) as [->|Hne].
    + by rewrite !decide_True by done.
    + done.
  - rewrite key_filter_lookup, Counter_incr_lookup.
    destruct (decide (P j)) as [Hj|Hj]; [|done].
    destruct (decide (j = k)) as [->|Hne]; [done|done].
Qed.

Lemma key_filter_fold_total ks : forall m,
  Counter_total (filter (fun kv : string * Z => P kv.1) (fold_left Counter_incr ks m))
  = Counter_total (filter (fun kv : string * Z => P kv.1) m)
    + Z.of_nat (length (filter P ks)).
Proof.
  induction ks as [|k ks IH]; intros m; simpl; [lia|].
  rewrite IH, key_filter_incr, filter_cons.
  destruct (decide (P k)); simpl; rewrite ?Counter_total_incr; lia.
Qed.

Lemma key_filter_update c1 c2 :
  filter (fun kv : string * Z => P kv.1) (Counter_update c1 c2)
  = Counter_update (filter (fun kv : string * Z => P kv.1) c1)
                   (filter (fun kv : string * Z => P kv.1) c2).
Proof.
  apply map_eq. intros i.
  rewrite key_filter_lookup, !Counter_update_lookup, !key_filter_lookup.
  by destruct (decide (P i)).
Qed.

End KeyFilter.
End CounterSums.

(** ** The candidate mapping of a file *)
Section Candidates.

Lemma text_combos_keys (pages : list page) :
  text_combos pages = fold_left Counter_incr (d_un_com <$> spans_in_order pages) ∅.
Proof. unfold text_combos. by rewrite text_extraction. Qed.

Lemma image_combos_keys (pages : list page) :
  image_combos pages = fold_left Counter_incr (image_keys pages) ∅.
Proof. apply image_extraction. Qed.

(** No count of an extracted mapping is dropped by [+]. *)
Lemma candidate_combos_update (pages : list page) :
  candidate_combos pages = Counter_update (text_combos pages) (image_combos pages).
Proof.
  unfold candidate_combos. apply Counter_add_update.
  - rewrite text_combos_keys. apply fold_incr_positive.
  - rewrite image_combos_keys. apply fold_incr_positive.
Qed.

Lemma candidate_total (pages : list page) :
  Counter_total (candidate_combos pages)
  = Z.of_nat (length (spans_in_order pages)) + Z.of_nat (length (image_keys pages)).
Proof.
  rewrite candidate_combos_update, Counter_total_update.
  rewrite text_combos_keys, image_combos_keys, !fold_incr_total.
  rewrite Counter_total_empty, length_fmap. lia.
Qed.

Lemma filter_fmap_length {A B : Type} (f : A -> B) (P : B -> Prop)
    `{!forall b, Decision (P b)} (l : list A) :
  length (filter P (f <$> l)) = length (filter (fun a => P (f a)) l).
Proof.
  induction l as [|a l IH]; [done|].
  rewrite fmap_cons, !filter_cons.
  destruct (decide (P (f a))); simpl; by rewrite IH.
Qed.

Lemma candidate_unexpected (trained : Counter) (pages : list page) :
  unexpected_occurrences (candidate_combos pages) trained
  = Z.of_nat (length (flagged_spans trained pages))
    + Z.of_nat (length (unseen_images trained pages)).
Proof.
  unfold unexpected_occurrences, flagged_spans, unseen_images.
  pose proof (key_filter_update (fun k => trained !! k = None)) as Hupd.
  pose proof (key_filter_fold_total (fun k => trained !! k = None)) as Hfold.
  cbv beta in Hupd, Hfold.
  rewrite candidate_combos_update, Hupd.
  rewrite Counter_total_update, text_combos_keys, image_combos_keys.
  rewrite !Hfold.
  rewrite map_filter_empty, Counter_total_empty, filter_fmap_length. lia.
Qed.

(** The key of an extracted span is a key of the candidate. *)
Lemma span_key_in_candidate (pages : list page) (d : detail) :
  d ∈ spans_in_order pages -> d_un_com d ∈ dom (candidate_combos pages).
Proof.
  intros Hd. apply elem_of_dom.
  rewrite candidate_combos_update, Counter_update_lookup.
  rewrite text_combos_keys, fold_incr_frequencies. unfold frequencies.
  rewrite decide_True by (apply list_elem_of_fmap; eauto).
  by destruct (image_combos pages !! d_un_com d).
Qed.

Lemma filter_ext_elem {A : Type} (P Q : A -> Prop)
    `{!forall a, Decision (P a)} `{!forall a, Decision (Q a)} (l : list A) :
  (forall a, a ∈ l -> P a <-> Q a) -> filter P l = filter Q l.
Proof.
  induction l as [|a l IH]; intros Hpq; [done|].
  rewrite !filter_cons.
  pose proof (Hpq a ltac:(apply elem_of_cons; by left)) as Ha.
  rewrite IH by (intros b Hb; apply Hpq, elem_of_cons; by right).
  destruct (decide (P a)), (decide (Q a)); tauto.
Qed.

Lemma suspicious_are_flagged (trained : Counter) (pages : list page) :
  suspicious_chars (score trained (candidate_combos pages) (spans_in_order pages))
  = flagged_spans trained pages.
Proof.
  cbn [score suspicious_chars]. unfold flagged_spans, Counter_keys.
  apply filter_ext_elem. intros d Hd.
  apply span_key_in_candidate in Hd.
  rewrite elem_of_difference, not_elem_of_dom. tauto.
Qed.

Lemma validate_scored (s : session) (pages : list page) :
  trained_un_combos s <> ∅ ->
  validate_handler (Some (Readable pages)) s
  = (inr (Scored (score (trained_un_combos s) (candidate_combos pages)
                    (spans_in_order pages))), s).
Proof.
  intros Hne. rewrite validate_readable by done.
  by rewrite text_extraction.
Qed.

End Candidates.

Section Extremes.

(** [t / t] is exactly 1. *)
Lemma int_truediv_self (t : Z) : 0 < t -> int_truediv t t = float_of_int 1.
Proof.
  intros Ht. destruct t as [|p|p]; [lia| |lia].
  unfold int_truediv, exact_int, SFdiv, SFdiv_core_binary.
  replace (Zdigits2 (Zpos p) + 0 - (Zdigits2 (Zpos p) + 0)) with 0 by lia.
  change (Z.min (fexp prec emax 0) (0 - 0)) with (-53).
  change (0 - 0 - -53) with 53.
  rewrite Z.shiftl_mul_pow2 by lia.
  pose proof (Z_div_mod (Zpos p * 2 ^ 53) (Zpos p) ltac:(lia)) as Hdm.
  destruct (Z.div_eucl (Zpos p * 2 ^ 53) (Zpos p)) as [q r].
  destruct Hdm as [Hdm Hr].
  assert (q = 2 ^ 53) as -> by nia.
  assert (r = 0) as -> by nia.
  cbv beta iota. rewrite new_location_zero. vm_compute. reflexivity.
Qed.

Lemma int_truediv_zero (t : Z) : 0 < t -> int_truediv 0 t = S754_zero false.
Proof. intros Ht. destruct t as [|p|p]; [lia|done|lia]. Qed.

Lemma compute_fraud_score_none (t : Z) :
  0 <= t ->
  compute_fraud_score 0 t = if t =? 0 then NInt 0 else NFloat (S754_zero false).
Proof.
  intros Ht. unfold compute_fraud_score.
  destruct (t =? 0) eqn:E; [done|]. apply Z.eqb_neq in E.
  rewrite int_truediv_zero by lia. vm_compute. reflexivity.
Qed.

Lemma compute_fraud_score_all (t : Z) :
  0 < t -> compute_fraud_score t t = NFloat (float_of_int 100).
Proof.
  intros Ht. unfold compute_fraud_score.
  destruct (t =? 0) eqn:E; [apply Z.eqb_eq in E; lia|].
  rewrite int_truediv_self by done. vm_compute. reflexivity.
Qed.

End Extremes.

Section Baselines.
Implicit Types c : gmap string Z.

Lemma Counter_update_dom c1 c2 :
  dom (Counter_update c1 c2) = dom c1 ∪ dom c2.
Proof.
  apply set_eq. intros k.
  rewrite elem_of_union, !elem_of_dom, Counter_update_lookup.
  destruct (c1 !! k), (c2 !! k); split; intros H;
    try (by left); try (by right); try done;
    destruct H as [[? [=]]|[? [=]]].
Qed.

Lemma Counter_update_swap c a b :
  Counter_update (Counter_update c a) b = Counter_update (Counter_update c b) a.
Proof.
  apply map_eq. intros k. rewrite !Counter_update_lookup.
  destruct (c !! k), (a !! k), (b !! k); try done; f_equal; lia.
Qed.

Lemma fold_update_get (docs : list (list page)) : forall c k,
  Counter_get
    (fold_left (fun c pages => Counter_update c (candidate_combos pages)) docs c) k
  = Counter_get c k + summed_count docs k.
Proof.
  induction docs as [|pages docs IH]; intros c k; simpl; [lia|].
  rewrite IH, Counter_get_update. lia.
Qed.

Lemma fold_update_dom (docs : list (list page)) : forall c k,
  k ∈ dom (fold_left (fun c pages => Counter_update c (candidate_combos pages)) docs c)
  <-> k ∈ dom c \/ exists pages, pages ∈ docs /\ k ∈ dom (candidate_combos pages).
Proof.
  induction docs as [|pages docs IH]; intros c k; simpl.
  - split; [by left|]. intros [H|(p & Hp & _)]; [done|].
    by apply not_elem_of_nil in Hp.
  - rewrite IH, Counter_update_dom, elem_of_union. split.
    + intros [[H|H]|(p & Hp & Hk)]; [by left| |].
      * right. exists pages. split; [apply elem_of_cons; by left|done].
      * right. exists p. split; [apply elem_of_cons; by right|done].
    + intros [H|(p & Hp & Hk)]; [by left; left|].
      apply elem_of_cons in Hp as [->|Hp]; [by left; right|].
      right. by exists p.
Qed.

Lemma fold_update_permutation (docs docs' : list (list page)) :
  Permutation docs docs' ->
  forall c,
    fold_left (fun c pages => Counter_update c (candidate_combos pages)) docs c
    = fold_left (fun c pages => Counter_update c (candidate_combos pages)) docs' c.
Proof.
  induction 1 as [|x l l' _ IH|x y l|l l' l'' _ IH1 _ IH2]; intros c; simpl.
  - done.
  - apply IH.
  - by rewrite Counter_update_swap.
  - by rewrite IH1, IH2.
Qed.

Lemma aggregate_dom (docs : list (list page)) (k : string) :
  k ∈ dom (aggregate docs)
  <-> exists pages, pages ∈ docs /\ k ∈ dom (candidate_combos pages).
Proof.
  unfold aggregate. rewrite fold_update_dom, dom_empty. split.
  - intros [H|H]; [by apply not_elem_of_empty in H|done].
  - by right.
Qed.

End Baselines.

Section Details.

Lemma image_keys_count (pages : list page) :
  length (image_keys pages) = image_count pages.
Proof.
  unfold image_keys, image_count.
  induction pages as [|p pages IH]; [done|].
  rewrite bind_cons, length_app, length_fmap. simpl. by rewrite IH.
Qed.

Lemma enumerate_from_bounds {X : Type} (xs : list X) : forall i j x,
  (j, x) ∈ enumerate_from i xs -> i <= j < i + Z.of_nat (length xs).
Proof.
  induction xs as [|y xs IH]; intros i j x Hin; simpl in Hin.
  - by apply not_elem_of_nil in Hin.
  - apply elem_of_cons in Hin as [[= -> ->]|Hin]; simpl length; [lia|].
    apply IH in Hin. lia.
Qed.

Lemma page_details_entry (ip : Z * page) (d : detail) :
  d ∈ page_details ip ->
  d_page d = ip.1 /\ exists sp, is_blank sp = false /\ d = detail_of ip.1 sp.
Proof.
  unfold page_details, block_details, line_details, span_details.
  intros Hd.
  apply list_elem_of_bind in Hd as (b & Hd & _).
  apply list_elem_of_bind in Hd as (l & Hd & _).
  apply list_elem_of_bind in Hd as (sp & Hd & _).
  destruct (is_blank sp) eqn:Hb; [by apply not_elem_of_nil in Hd|].
  apply elem_of_cons in Hd as [->|Hd]; [|by apply not_elem_of_nil in Hd].
  split; [done|]. by exists sp.
Qed.

Lemma spans_in_order_entry (pages : list page) (d : detail) :
  d ∈ spans_in_order pages ->
  0 <= d_page d < Z.of_nat (length pages) /\ d_text d <> "".
Proof.
  unfold spans_in_order, enumerate. intros Hd.
  apply list_elem_of_bind in Hd as ([j p] & Hd & Hjp).
  apply enumerate_from_bounds in Hjp.
  apply page_details_entry in Hd as (Hpage & sp & Hb & ->).
  simpl in *. split; [lia|].
  unfold is_blank in Hb. intros Heq. rewrite Heq in Hb. discriminate.
Qed.

Lemma filter_length_mono {A : Type} (P Q : A -> Prop)
    `{!forall a, Decision (P a)} `{!forall a, Decision (Q a)} (l : list A) :
  (forall a, P a -> Q a) -> (length (filter P l) <= length (filter Q l))%nat.
Proof.
  intros Hpq. induction l as [|a l IH]; [done|].
  rewrite !filter_cons.
  destruct (decide (P a)) as [Hp|Hp], (decide (Q a)) as [Hq|Hq]; simpl;
    [lia|by destruct Hq; auto|lia|lia].
Qed.

Lemma filter_all {A : Type} (P : A -> Prop) `{!forall a, Decision (P a)} (l : list A) :
  (forall a, a ∈ l -> P a) -> filter P l = l.
Proof.
  induction l as [|a l IH]; intros Hall; [done|].
  rewrite filter_cons, decide_True by (apply Hall, elem_of_cons; by left).
  rewrite IH; [done|]. intros b Hb. apply Hall, elem_of_cons. by right.
Qed.

Lemma filter_none {A : Type} (P : A -> Prop) `{!forall a, Decision (P a)} (l : list A) :
  (forall a, a ∈ l -> ~ P a) -> filter P l = [].
Proof.
  induction l as [|a l IH]; intros Hall; [done|].
  rewrite filter_cons, decide_False by (apply Hall, elem_of_cons; by left).
  apply IH. intros b Hb. apply Hall, elem_of_cons. by right.
Qed.

End Details.

(** X1: on a readable file, the total the score divides by is the number
    of entries of [detailed_chars], one per span that is not blank, plus
    the number of images the pages list. *)
Theorem total_used_counts_spans_and_images (s : session) (pages : list page) :
  trained_un_combos s <> ∅ ->
  exists r c ds,
    validate_handler (Some (Readable pages)) s = (inr (Scored r), s) /\
    extract_formatting_combos (Readable pages) = inr (c, ds) /\
    total_used r = Z.of_nat (length ds) + Z.of_nat (image_count pages).
Proof.
  intros Hne. do 3 eexists. split; [by apply validate_scored|].
  split; [unfold extract_formatting_combos; simpl; by rewrite text_extraction|].
  cbn [score total_used]. by rewrite candidate_total, image_keys_count.
Qed.

Lemma total_used_counts_spans_and_images_witness :
  exists r c ds,
    validate_handler (Some (Readable mixed_pages)) trained_session
    = (inr (Scored r), trained_session) /\
    extract_formatting_combos (Readable mixed_pages) = inr (c, ds) /\
    total_used r = Z.of_nat (length ds) + Z.of_nat (image_count mixed_pages).
Proof.
  apply (total_used_counts_spans_and_images trained_session mixed_pages).
  apply Counter_bool_true. vm_compute. reflexivity.
Defined.

(** X2: the reported suspicious entries are exactly the entries of
    [detailed_chars] whose key is not a key of the baseline, in document
    order, and [unexpected_used] is their number plus the number of listed
    images whose key is not a key of the baseline. *)
Theorem suspicious_chars_are_the_unseen_spans (s : session) (pages : list page) :
  trained_un_combos s <> ∅ ->
  exists r c ds,
    validate_handler (Some (Readable pages)) s = (inr (Scored r), s) /\
    extract_formatting_combos (Readable pages) = inr (c, ds) /\
    suspicious_chars r
    = filter (fun d => trained_un_combos s !! d_un_com d = None) ds /\
    unexpected_used r
    = Z.of_nat (length (suspicious_chars r))
      + Z.of_nat (length (unseen_images (trained_un_combos s) pages)).
Proof.
  intros Hne. do 3 eexists. split; [by apply validate_scored|].
  split; [unfold extract_formatting_combos; simpl; by rewrite text_extraction|].
  rewrite suspicious_are_flagged. split; [done|].
  cbn [score unexpected_used].
  by rewrite unexpected_used_occurrences, candidate_unexpected.
Qed.

Lemma suspicious_chars_are_the_unseen_spans_witness :
  exists r c ds,
    validate_handler (Some (Readable mixed_pages)) trained_session
    = (inr (Scored r), trained_session) /\
    extract_formatting_combos (Readable mixed_pages) = inr (c, ds) /\
    suspicious_chars r
    = filter (fun d => trained_un_combos trained_session !! d_un_com d = None) ds /\
    unexpected_used r
    = Z.of_nat (length (suspicious_chars r))
      + Z.of_nat (length (unseen_images (trained_un_combos trained_session) mixed_pages)).
Proof.
  apply (suspicious_chars_are_the_unseen_spans trained_session mixed_pages).
  apply Counter_bool_true. vm_compute. reflexivity.
Defined.

(** X3: the validate handler never changes the session, whatever the
    baseline and the test file, also when opening the file raises. *)
Theorem validate_leaves_session (test_file : option pdf_file) (s : session) :
  snd (validate_handler test_file s) = s.
Proof.
  unfold validate_handler, bind, get_trained.
  destruct (negb (Counter_bool (trained_un_combos s))); [done|].
  by destruct test_file as [[e|pages]|].
Qed.

(** X4: with a baseline, a missing test file is refused with the upload
    warning, and a test file that does not open makes the handler raise
    the exception of the PDF library; no score is computed. *)
Theorem validate_without_readable_file (s : session) :
  trained_un_combos s <> ∅ ->
  validate_handler None s = (inr (Refused Warn_upload_test), s) /\
  forall e, validate_handler (Some (Unreadable e)) s = (inl e, s).
Proof.
  intros Hne. unfold validate_handler, bind, get_trained.
  assert (Counter_bool (trained_un_combos s) = true) as ->.
  { destruct (Counter_bool _) eqn:Hb; [done|].
    by apply Counter_bool_false in Hb. }
  done.
Qed.

Lemma validate_without_readable_file_witness :
  validate_handler None trained_session
  = (inr (Refused Warn_upload_test), trained_session) /\
  forall e, validate_handler (Some (Unreadable e)) trained_session
            = (inl e, trained_session).
Proof.
  apply (validate_without_readable_file trained_session).
  apply Counter_bool_true. vm_compute. reflexivity.
Defined.

(** X5: a file that was one of the training files has no unexpected key:
    validated against the baseline of that training, nothing is reported
    and the score is zero, the integer 0 when the file has neither a span
    that is not blank nor an image, the float 0.0 otherwise. *)
Theorem trained_file_scores_zero
    (docs : list (list page)) (pages : list page) (s : session) :
  pages ∈ docs ->
  trained_un_combos (snd (train_handler (map Readable docs) s)) <> ∅ ->
  exists r,
    validate_handler (Some (Readable pages)) (snd (train_handler (map Readable docs) s))
    = (inr (Scored r), snd (train_handler (map Readable docs) s)) /\
    unexpected r = ∅ /\ unexpected_used r = 0 /\ suspicious_chars r = [] /\
    fraud_score r = if total_used r =? 0 then NInt 0 else NFloat (S754_zero false).
Proof.
  intros Hin Hne.
  assert (docs <> []) as Hdocs.
  { intros ->. by apply not_elem_of_nil in Hin. }
  rewrite train_handler_readable in * by done. simpl snd in *.
  eexists. split; [by apply validate_scored|].
  assert (Counter_keys (candidate_combos pages) ∖ Counter_keys (aggregate docs) = ∅)
    as Hnone.
  { apply set_eq. intros k. unfold Counter_keys.
    rewrite elem_of_difference, aggregate_dom. split.
    - intros [Hk Hnk]. destruct Hnk. by exists pages.
    - intros Hk. by apply not_elem_of_empty in Hk. }
  cbn [score unexpected unexpected_used total_used fraud_score suspicious_chars
       trained_un_combos].
  rewrite Hnone, sum_over_empty.
  split; [done|]. split; [done|]. split.
  - apply filter_none. intros d _. apply not_elem_of_empty.
  - apply compute_fraud_score_none. rewrite candidate_total. lia.
Qed.

Lemma trained_file_scores_zero_witness :
  exists r,
    validate_handler (Some (Readable tampered_pages))
      (snd (train_handler (map Readable [genuine_pages; tampered_pages]) initial_session))
    = (inr (Scored r),
       snd (train_handler (map Readable [genuine_pages; tampered_pages]) initial_session)) /\
    unexpected r = ∅ /\ unexpected_used r = 0 /\ suspicious_chars r = [] /\
    fraud_score r = if total_used r =? 0 then NInt 0 else NFloat (S754_zero false).
Proof.
  apply (trained_file_scores_zero [genuine_pages; tampered_pages] tampered_pages
           initial_session).
  - do 2 constructor.
  - apply Counter_bool_true. vm_compute. reflexivity.
Defined.

(** X6: when no key of the file is a key of the baseline, every entry of
    [detailed_chars] is reported and the score is exactly 100.0 (the
    integer 0 when the file has neither a span that is not blank nor an
    image). *)
Theorem unseen_file_scores_hundred (s : session) (pages : list page) :
  trained_un_combos s <> ∅ ->
  Counter_keys (candidate_combos pages) ## Counter_keys (trained_un_combos s) ->
  exists r c ds,
    validate_handler (Some (Readable pages)) s = (inr (Scored r), s) /\
    extract_formatting_combos (Readable pages) = inr (c, ds) /\
    suspicious_chars r = ds /\
    unexpected_used r = total_used r /\
    fraud_score r = if total_used r =? 0 then NInt 0 else NFloat (float_of_int 100).
Proof.
  intros Hne Hdisj. do 3 eexists. split; [by apply validate_scored|].
  split; [unfold extract_formatting_combos; simpl; by rewrite text_extraction|].
  assert (Counter_keys (candidate_combos pages) ∖ Counter_keys (trained_un_combos s)
          = Counter_keys (candidate_combos pages)) as Hall.
  { apply set_eq. intros k. rewrite elem_of_difference. split; [tauto|].
    intros Hk. split; [done|]. intros Hk'. by apply (Hdisj k). }
  assert (sum_over (candidate_combos pages) (Counter_keys (candidate_combos pages))
          = Counter_total (candidate_combos pages)) as Hsum.
  { unfold Counter_keys. by apply sum_over_dom. }
  cbn [score unexpected unexpected_used total_used fraud_score suspicious_chars].
  rewrite Hall, Hsum. split; [|split; [done|]].
  - apply filter_all. intros d Hd. by apply span_key_in_candidate.
  - destruct (Counter_total (candidate_combos pages) =? 0) eqn:E.
    + apply Z.eqb_eq in E. by rewrite E.
    + apply Z.eqb_neq in E.
      apply compute_fraud_score_all. rewrite candidate_total in *. lia.
Qed.

Lemma unseen_file_scores_hundred_witness :
  exists r c ds,
    validate_handler (Some (Readable red_pages)) trained_session
    = (inr (Scored r), trained_session) /\
    extract_formatting_combos (Readable red_pages) = inr (c, ds) /\
    suspicious_chars r = ds /\
    unexpected_used r = total_used r /\
    fraud_score r = if total_used r =? 0 then NInt 0 else NFloat (float_of_int 100).
Proof.
  apply (unseen_file_scores_hundred trained_session red_pages).
  - apply Counter_bool_true. vm_compute. reflexivity.
  - apply (bool_decide_unpack _). vm_compute. exact I.
Defined.

Section BaselineFacts.

Lemma candidate_get (pages : list page) (k : string) :
  0 <= Counter_get (candidate_combos pages) k /\
  (k ∈ dom (candidate_combos pages) <-> 0 < Counter_get (candidate_combos pages) k).
Proof.
  rewrite elem_of_dom. unfold Counter_get.
  destruct (candidate_combos pages !! k) as [v|] eqn:Hk; simpl.
  - apply Counter_add_positive in Hk. split; [lia|]. split; [done|by eexists].
  - split; [lia|]. split; [by intros [? [=]]|lia].
Qed.

Lemma summed_count_positive (docs : list (list page)) (k : string) :
  0 <= summed_count docs k /\
  (0 < summed_count docs k
   <-> exists pages, pages ∈ docs /\ k ∈ dom (candidate_combos pages)).
Proof.
  induction docs as [|pages docs [IH0 IH]]; simpl.
  - split; [lia|]. split; [lia|].
    intros (p & Hp & _). by apply not_elem_of_nil in Hp.
  - destruct (candidate_get pages k) as [H0 Hk]. split; [lia|]. split.
    + intros Hpos.
      destruct (decide (0 < Counter_get (candidate_combos pages) k)) as [Hp|Hp].
      * exists pages. split; [apply elem_of_cons; by left|by apply Hk].
      * assert (0 < summed_count docs k) as Hs by lia.
        apply IH in Hs as (p & Hin & Hd).
        exists p. split; [apply elem_of_cons; by right|done].
    + intros (p & Hin & Hd). apply elem_of_cons in Hin as [->|Hin].
      * apply Hk in Hd. lia.
      * assert (0 < summed_count docs k) by (apply IH; by exists p). lia.
Qed.

Lemma aggregate_app_dom (docs more : list (list page)) :
  dom (aggregate docs) ⊆ dom (aggregate (docs ++ more)).
Proof.
  intros k. rewrite !aggregate_dom. intros (p & Hp & Hk).
  exists p. split; [apply elem_of_app; by left|done].
Qed.

End BaselineFacts.

(** X7: after a training on readable files, the count the baseline holds
    for a key is the sum of the counts of that key in the files, and the
    keys of the baseline are the keys with a positive sum. *)
Theorem baseline_sums_the_files (docs : list (list page)) (s : session) (k : string) :
  docs <> [] ->
  Counter_get (trained_un_combos (snd (train_handler (map Readable docs) s))) k
  = summed_count docs k /\
  (k ∈ Counter_keys (trained_un_combos (snd (train_handler (map Readable docs) s)))
   <-> 0 < summed_count docs k).
Proof.
  intros Hdocs. rewrite train_handler_readable by done. simpl. split.
  - unfold aggregate. rewrite fold_update_get. unfold Counter_get.
    rewrite lookup_empty. simpl. lia.
  - unfold Counter_keys. rewrite aggregate_dom.
    by destruct (summed_count_positive docs k) as [_ ->].
Qed.

Lemma baseline_sums_the_files_witness :
  Counter_get
    (trained_un_combos
       (snd (train_handler (map Readable [genuine_pages; tampered_pages])
               initial_session)))
    "12.0_0_Arial_#000000_0.905_-0.212"
  = summed_count [genuine_pages; tampered_pages] "12.0_0_Arial_#000000_0.905_-0.212" /\
  ("12.0_0_Arial_#000000_0.905_-0.212"
     ∈ Counter_keys
         (trained_un_combos
            (snd (train_handler (map Readable [genuine_pages; tampered_pages])
                    initial_session)))
   <-> 0 < summed_count [genuine_pages; tampered_pages]
             "12.0_0_Arial_#000000_0.905_-0.212").
Proof.
  apply (baseline_sums_the_files [genuine_pages; tampered_pages] initial_session).
  discriminate.
Defined.

(** X8: the order in which the training files are uploaded does not
    matter: a training on readable files gives the same message and the
    same session in whatever order the files come. *)
Theorem training_order_is_irrelevant (docs docs' : list (list page)) (s : session) :
  Permutation docs docs' ->
  train_handler (map Readable docs) s = train_handler (map Readable docs') s.
Proof.
  intros Hperm. destruct docs as [|d docs].
  - apply Permutation_nil_l in Hperm as ->. done.
  - destruct docs' as [|d' docs'].
    { by apply Permutation_nil_r in Hperm. }
    rewrite !train_handler_readable by done.
    unfold aggregate. by rewrite (fold_update_permutation _ _ Hperm).
Qed.

Lemma training_order_is_irrelevant_witness :
  train_handler (map Readable [genuine_pages; tampered_pages]) initial_session
  = train_handler (map Readable [tampered_pages; genuine_pages]) initial_session.
Proof.
  apply (training_order_is_irrelevant [genuine_pages; tampered_pages]
           [tampered_pages; genuine_pages] initial_session).
  apply perm_swap.
Defined.

(** X9: training on further readable files never makes a file look
    worse: the unexpected keys, the count of unexpected occurrences and
    the reported entries can only shrink, and the total stays. *)
Theorem more_training_flags_less
    (docs more : list (list page)) (pages : list page) (s : session) :
  docs <> [] ->
  trained_un_combos (snd (train_handler (map Readable docs) s)) <> ∅ ->
  exists r r',
    validate_handler (Some (Readable pages))
      (snd (train_handler (map Readable docs) s))
    = (inr (Scored r), snd (train_handler (map Readable docs) s)) /\
    validate_handler (Some (Readable pages))
      (snd (train_handler (map Readable (docs ++ more)) s))
    = (inr (Scored r'), snd (train_handler (map Readable (docs ++ more)) s)) /\
    unexpected r' ⊆ unexpected r /\
    unexpected_used r' <= unexpected_used r /\
    total_used r' = total_used r /\
    (length (suspicious_chars r') <= length (suspicious_chars r))%nat.
Proof.
  intros Hdocs Hne.
  assert (docs ++ more <> []) as Hmore by (by destruct docs).
  rewrite !train_handler_readable in * by done. simpl snd in *.
  simpl trained_un_combos in Hne.
  pose proof (aggregate_app_dom docs more) as Hsub.
  assert (aggregate (docs ++ more) <> ∅) as Hne'.
  { intros Hempty. apply map_choose in Hne as (k & v & Hk).
    assert (k ∈ dom (aggregate (docs ++ more))) as Hk'
      by (apply Hsub, elem_of_dom; by eexists).
    rewrite Hempty, dom_empty in Hk'. by apply not_elem_of_empty in Hk'. }
  assert (forall k, aggregate (docs ++ more) !! k = None -> aggregate docs !! k = None)
    as Hunseen.
  { intros k. rewrite <- !not_elem_of_dom. intros Hk Hk'. apply Hk, Hsub, Hk'. }
  do 2 eexists. split; [by apply validate_scored|].
  split; [by apply validate_scored|].
  rewrite !suspicious_are_flagged.
  cbn [score unexpected unexpected_used total_used trained_un_combos].
  rewrite !unexpected_used_occurrences, !candidate_unexpected.
  unfold flagged_spans, unseen_images.
  pose proof (filter_length_mono
                (fun d => aggregate (docs ++ more) !! d_un_com d = None)
                (fun d => aggregate docs !! d_un_com d = None)
                (spans_in_order pages) ltac:(intros d; apply Hunseen)) as Hspans.
  pose proof (filter_length_mono
                (fun k => aggregate (docs ++ more) !! k = None)
                (fun k => aggregate docs !! k = None)
                (image_keys pages) Hunseen) as Himages.
  split; [|split; [lia|split; [done|exact Hspans]]].
  unfold Counter_keys. intros k. rewrite !elem_of_difference.
  intros [Hk Hnk]. split; [done|]. intros Hk'. apply Hnk, Hsub, Hk'.
Qed.

Lemma more_training_flags_less_witness :
  exists r r',
    validate_handler (Some (Readable mixed_pages))
      (snd (train_handler (map Readable [genuine_pages]) initial_session))
    = (inr (Scored r), snd (train_handler (map Readable [genuine_pages]) initial_session)) /\
    validate_handler (Some (Readable mixed_pages))
      (snd (train_handler (map Readable ([genuine_pages] ++ [red_pages])) initial_session))
    = (inr (Scored r'),
       snd (train_handler (map Readable ([genuine_pages] ++ [red_pages])) initial_session)) /\
    unexpected r' ⊆ unexpected r /\
    unexpected_used r' <= unexpected_used r /\
    total_used r' = total_used r /\
    (length (suspicious_chars r') <= length (suspicious_chars r))%nat.
Proof.
  apply (more_training_flags_less [genuine_pages] [red_pages] mixed_pages
           initial_session).
  - discriminate.
  - apply Counter_bool_true. vm_compute. reflexivity.
Defined.

(** X10: every entry of [detailed_chars] has a text that is not empty, a
    page index that is an index of the document, so that the annotation
    can look its page up, and a key the mapping counts at least once. *)
Theorem detailed_chars_are_well_formed (pages : list page) :
  exists c ds,
    extract_formatting_combos (Readable pages) = inr (c, ds) /\
    Forall (fun d => 0 <= d_page d < Z.of_nat (length pages) /\
                     d_text d <> "" /\
                     1 <= Counter_get c (d_un_com d)) ds.
Proof.
  do 2 eexists.
  split; [unfold extract_formatting_combos; simpl; by rewrite text_extraction|].
  apply Forall_forall. intros d Hd.
  destruct (spans_in_order_entry pages d Hd) as [Hpage Htext].
  split; [done|]. split; [done|].
  unfold Counter_get. rewrite fold_incr_frequencies. unfold frequencies.
  assert (d_un_com d ∈ d_un_com <$> spans_in_order pages) as Hin
    by (apply list_elem_of_fmap; eauto).
  rewrite decide_True by done. simpl. by apply key_occurrences_pos.
Qed.

Section Colours.

Lemma hex_value_digit (d : Z) : 0 <= d < 16 -> hex_value (hex_digit d) = d.
Proof.
  intros Hd.
  assert (d = 0 \/ d = 1 \/ d = 2 \/ d = 3 \/ d = 4 \/ d = 5 \/ d = 6 \/ d = 7 \/
          d = 8 \/ d = 9 \/ d = 10 \/ d = 11 \/ d = 12 \/ d = 13 \/ d = 14 \/ d = 15)
    as Hcases by lia.
  repeat (destruct Hcases as [->|Hcases]; [reflexivity|]).
  by subst.
Qed.

Lemma land_255 (z : Z) : Z.land z 255 = z mod 256.
Proof. change 255 with (Z.ones 8). by rewrite Z.land_ones. Qed.

Lemma hex_layout (r1 r0 g1 g0 b1 b0 : ascii) :
  "#" +:+ String r1 (String r0 "") +:+ String g1 (String g0 "")
      +:+ String b1 (String b0 "")
  = String "#" (String r1 (String r0 (String g1 (String g0 (String b1 (String b0 "")))))).
Proof. reflexivity. Qed.

Lemma hex_to_int_to_hex (c : Z) : hex_to_int (int_to_hex c) = c mod 16777216.
Proof.
  unfold int_to_hex, format_02X. rewrite hex_layout. cbn [hex_to_int].
  rewrite !land_255, !Z.shiftr_div_pow2 by lia.
  change (2 ^ 16) with 65536. change (2 ^ 8) with 256.
  rewrite !hex_value_digit by (Z.div_mod_to_equations; lia).
  Z.div_mod_to_equations. lia.
Qed.

Lemma int_to_hex_mod (c : Z) : int_to_hex (c mod 16777216) = int_to_hex c.
Proof.
  unfold int_to_hex. rewrite !land_255, !Z.shiftr_div_pow2 by lia.
  change (2 ^ 16) with 65536. change (2 ^ 8) with 256.
  assert ((c mod 16777216 / 65536) mod 256 = (c / 65536) mod 256) as ->
    by (Z.div_mod_to_equations; lia).
  assert ((c mod 16777216 / 256) mod 256 = (c / 256) mod 256) as ->
    by (Z.div_mod_to_equations; lia).
  assert ((c mod 16777216) mod 256 = c mod 256) as ->
    by (Z.div_mod_to_equations; lia).
  done.
Qed.

End Colours.

(** X11: the hex string of a colour has seven characters and keeps the
    low 24 bits of the integer and nothing else: two integers print alike
    exactly when they agree on these bits, so bits above the 24th (an
    alpha channel, or the sign) do not reach the key. *)
Theorem int_to_hex_keeps_low_24_bits (c1 c2 : Z) :
  String.length (int_to_hex c1) = 7%nat /\
  (int_to_hex c1 = int_to_hex c2 <-> c1 mod 2 ^ 24 = c2 mod 2 ^ 24).
Proof.
  split.
  { unfold int_to_hex, format_02X. by rewrite hex_layout. }
  change (2 ^ 24) with 16777216. split.
  - intros Heq. by rewrite <- !hex_to_int_to_hex, Heq.
  - intros Heq. by rewrite <- (int_to_hex_mod c1), Heq, int_to_hex_mod.
Qed.

Section Hundredths.

Lemma compute_fraud_score_hundredths (u t : Z) :
  0 <= u <= t -> 0 < t ->
  exists n, 0 <= n <= 10000 /\ compute_fraud_score u t = NFloat (int_truediv n 100).
Proof.
  intros Hut Ht. unfold compute_fraud_score.
  destruct (t =? 0) eqn:E; [apply Z.eqb_eq in E; lia|].
  pose proof (int_truediv_below u t Hut Ht) as H1.
  apply float_mul_100_below in H1.
  destruct (float_round_hundredths _ H1) as [->|(n & Hn & ->)].
  - exists 0. split; [lia|done].
  - exists n. split; [lia|done].
Qed.

Lemma aggregate_of_empty (docs : list (list page)) :
  Forall (fun pages => candidate_combos pages = ∅) docs ->
  aggregate docs = ∅.
Proof.
  intros Hall. apply map_eq. intros k. rewrite lookup_empty.
  apply not_elem_of_dom. rewrite aggregate_dom.
  intros (pages & Hin & Hk).
  rewrite Forall_forall in Hall. rewrite (Hall pages Hin), dom_empty in Hk.
  by apply not_elem_of_empty in Hk.
Qed.

End Hundredths.

(** X12: the score of a readable file is the integer 0 when the file has
    neither a span that is not blank nor an image, and otherwise a number
    of hundredths: the float nearest to [n / 100] for an integer [n] from
    0 to 10000. *)
Theorem fraud_score_is_in_hundredths (s : session) (pages : list page) :
  trained_un_combos s <> ∅ ->
  exists r,
    validate_handler (Some (Readable pages)) s = (inr (Scored r), s) /\
    ((total_used r = 0 /\ fraud_score r = NInt 0) \/
     (0 < total_used r /\
      exists n, 0 <= n <= 10000 /\ fraud_score r = NFloat (int_truediv n 100))).
Proof.
  intros Hne. eexists. split; [by apply validate_scored|].
  cbn [score total_used fraud_score]. rewrite unexpected_used_occurrences.
  pose proof (unexpected_occurrences_bounds (candidate_combos pages)
                (trained_un_combos s)
                ltac:(intros k v; apply Counter_add_positive)) as Hb.
  destruct (decide (Counter_total (candidate_combos pages) = 0)) as [H0|H0].
  - left. split; [done|]. unfold compute_fraud_score. by rewrite H0.
  - right. split; [lia|]. apply compute_fraud_score_hundredths; lia.
Qed.

Lemma fraud_score_is_in_hundredths_witness :
  exists r,
    validate_handler (Some (Readable tampered_pages)) trained_session
    = (inr (Scored r), trained_session) /\
    ((total_used r = 0 /\ fraud_score r = NInt 0) \/
     (0 < total_used r /\
      exists n, 0 <= n <= 10000 /\ fraud_score r = NFloat (int_truediv n 100))).
Proof.
  apply (fraud_score_is_in_hundredths trained_session tampered_pages).
  apply Counter_bool_true. vm_compute. reflexivity.
Defined.

(** X13: validation reads the baseline through its set of keys only: two
    sessions whose baselines have the same keys, whatever the counts, get
    the same answer, report and score, on every test file. *)
Theorem validation_uses_baseline_keys_only
    (test_file : option pdf_file) (s1 s2 : session) :
  Counter_keys (trained_un_combos s1) = Counter_keys (trained_un_combos s2) ->
  fst (validate_handler test_file s1) = fst (validate_handler test_file s2).
Proof.
  intros Hkeys. unfold validate_handler, bind, get_trained.
  assert (Counter_bool (trained_un_combos s1) = Counter_bool (trained_un_combos s2))
    as Hbool.
  { unfold Counter_bool, Counter_keys in *. f_equal.
    apply bool_decide_ext. rewrite <- !dom_empty_iff_L. by rewrite Hkeys. }
  rewrite Hbool. destruct (negb (Counter_bool (trained_un_combos s2))); [done|].
  destruct test_file as [[e|pages]|]; [done| |done].
  simpl. unfold score. by rewrite Hkeys.
Qed.

Lemma validation_uses_baseline_keys_only_witness :
  fst (validate_handler (Some (Readable mixed_pages)) trained_session)
  = fst (validate_handler (Some (Readable mixed_pages))
           (Session {[ "12.0_0_Arial_#000000_0.905_-0.212" := 7 ]})).
Proof.
  apply (validation_uses_baseline_keys_only (Some (Readable mixed_pages))
           trained_session
           (Session {[ "12.0_0_Arial_#000000_0.905_-0.212" := 7 ]})).
  vm_compute. reflexivity.
Defined.

(** X14: a training on readable files that hold neither a span that is
    not blank nor an image reports success and leaves an empty baseline,
    so that the next validation is refused as if nothing had been
    trained. *)
Theorem training_on_blank_files_trains_nothing
    (docs : list (list page)) (test_file : option pdf_file) (s : session) :
  docs <> [] ->
  Forall (fun pages => candidate_combos pages = ∅) docs ->
  train_handler (map Readable docs) s = (inr Success_trained, Session ∅) /\
  validate_handler test_file (snd (train_handler (map Readable docs) s))
  = (inr (Refused Warn_train_first), Session ∅).
Proof.
  intros Hdocs Hall. rewrite train_handler_readable by done.
  rewrite aggregate_of_empty by done. split; [done|].
  unfold validate_handler, bind, get_trained. simpl.
  by rewrite (proj2 (Counter_bool_false ∅) eq_refl).
Qed.

Lemma training_on_blank_files_trains_nothing_witness :
  train_handler (map Readable [blank_pages]) trained_session
  = (inr Success_trained, Session ∅) /\
  validate_handler (Some tampered_pdf)
    (snd (train_handler (map Readable [blank_pages]) trained_session))
  = (inr (Refused Warn_train_first), Session ∅).
Proof.
  apply (training_on_blank_files_trains_nothing [blank_pages] (Some tampered_pdf)
           trained_session).
  - discriminate.
  - repeat constructor.
Defined.

(** * Further properties of the metadata analysis *)

Section Cleaning.

Lemma ascii_only_all_ascii (s : string) : all_ascii (ascii_only s) = true.
Proof.
  induction s as [|c s IH]; [done|]. simpl.
  destruct (byte_of c <? 128)%N eqn:Hc; [|done].
  simpl. by rewrite Hc, IH.
Qed.

Lemma ascii_only_id (s : string) : all_ascii s = true -> ascii_only s = s.
Proof.
  induction s as [|c s IH]; [done|]. simpl.
  intros [Hc Hs]%andb_true_iff. by rewrite Hc, IH.
Qed.

Lemma ascii_only_length (s : string) :
  (String.length (ascii_only s) <= String.length s)%nat.
Proof.
  induction s as [|c s IH]; [done|]. simpl.
  destruct (byte_of c <? 128)%N; simpl; lia.
Qed.

Lemma lower_char_idem (c : ascii) : lower_char (lower_char c) = lower_char c.
Proof. by destruct c as [[] [] [] [] [] [] [] []]. Qed.

Lemma lower_idem (s : string) : lower (lower s) = lower s.
Proof.
  induction s as [|c s IH]; [done|]. simpl. by rewrite lower_char_idem, IH.
Qed.

Lemma keyword_reasons_nil (key val : string) :
  keyword_reasons key val = [] <-> mentions_keyword val = false.
Proof.
  unfold keyword_reasons, mentions_keyword.
  induction SUSPICIOUS_KEYWORDS as [|word words IH]; [done|].
  simpl. destruct (contains (lower word) (lower val)); simpl; [|exact IH].
  split; discriminate.
Qed.


Lemma keyword_reasons_nonempty (key val : string) :
  Forall (fun reason => reason <> "") (keyword_reasons key val).
Proof.
  unfold keyword_reasons.
  induction SUSPICIOUS_KEYWORDS as [|word words IH]; [constructor|].
  simpl. destruct (contains (lower word) (lower val)); simpl; [|exact IH].
  constructor; [discriminate|exact IH].
Qed.

Lemma join_empty (sep : string) (parts : list string) :
  Forall (fun p => p <> "") parts -> join sep parts = "" -> parts = [].
Proof.
  destruct parts as [|p rest]; [done|].
  intros Hall Hj. apply Forall_cons in Hall as [Hp _].
  destruct p as [|c p]; [done|]. by destruct rest.
Qed.

Lemma drop_date_prefix_once (s : string) : drop_date_prefix ("D:" +:+ s) = s.
Proof.
  change ("D:" +:+ s) with (String "D" (String ":" s)).
  unfold drop_date_prefix. simpl. rewrite Nat.sub_0_r.
  assert (String.prefix "" s = true) as -> by (by destruct s).
  induction s as [|c s IH]; [done|]. simpl. by rewrite IH.
Qed.

End Cleaning.

(** X15: [remove_non_ascii] on a text never raises; what it returns is
    ASCII only, is returned unchanged when cleaned again, is not longer
    than the text, and is the text itself when the text is ASCII. On an
    object that is not a text it raises an [AttributeError]. *)
Theorem remove_non_ascii_keeps_the_ascii (s : string) :
  (exists t, remove_non_ascii (MText s) = inr t /\
     all_ascii t = true /\
     remove_non_ascii (MText t) = inr t /\
     (String.length t <= String.length s)%nat /\
     (all_ascii s = true -> t = s)) /\
  (forall cls, exists e,
     remove_non_ascii (MObject cls) = inl e /\ exn_class e = "AttributeError").
Proof.
  split.
  - exists (ascii_only s). split; [done|].
    split; [apply ascii_only_all_ascii|].
    split; [simpl; f_equal; apply ascii_only_id, ascii_only_all_ascii|].
    split; [apply ascii_only_length|apply ascii_only_id].
  - intros cls. by eexists.
Qed.



Section AnalysisFacts.
Variable datetime : Type.
Variable basename : string -> string.
Variable read_metadata : string -> exn + metadata.
Variable json_dumps : gmap string meta_value -> exn + string.
Variable strptime14 : string -> option datetime.
Variable strftime : datetime -> string.
Variable datetime_gt : datetime -> datetime -> bool.

Lemma scan_keys_edited (meta : metadata) (keys : list string) :
  forall acc e rs,
    scan_keys meta keys acc = inr (e, rs) ->
    e = fst acc || existsb (keyword_in meta) keys.
Proof.
  induction keys as [|key keys IH]; intros acc e rs; simpl.
  - intros [= ->]. simpl. by rewrite orb_false_r.
  - unfold keyword_in at 1.
    destruct (remove_non_ascii (meta_get meta key)) as [err|val]; [done|].
    intros Hscan. apply IH in Hscan as ->. simpl.
    pose proof (keyword_reasons_nil key val) as Hnil.
    destruct (keyword_reasons key val) as [|reason reasons].
    + by rewrite (proj1 Hnil eq_refl).
    + destruct (mentions_keyword val); [by rewrite orb_true_r|].
      by pose proof (proj2 Hnil eq_refl).
Qed.

Lemma scan_keys_reasons (meta : metadata) (keys : list string) :
  forall acc e rs,
    scan_keys meta keys acc = inr (e, rs) ->
    (fst acc = false <-> snd acc = []) ->
    Forall (fun reason => reason <> "") (snd acc) ->
    (e = false <-> rs = []) /\ Forall (fun reason => reason <> "") rs.
Proof.
  induction keys as [|key keys IH]; intros acc e rs; simpl.
  - by intros [= ->].
  - destruct (remove_non_ascii (meta_get meta key)) as [err|val]; [done|].
    intros Hscan Hacc Hall. apply IH in Hscan; [done| |].
    + simpl. destruct (keyword_reasons key val) as [|reason reasons].
      * by rewrite app_nil_r.
      * split; [done|]. intros Happ. by apply app_eq_nil in Happ as [_ ?].
    + simpl. apply Forall_app. split; [done|]. apply keyword_reasons_nonempty.
Qed.

(** X17: the date cleaner removes one leading "D:" and no more before it
    parses, parses a text without the prefix as it is, and answers [None],
    without raising, on an object that is not a text. *)
Theorem clean_pdf_date_drops_one_prefix (s : string) :
  clean_pdf_date datetime strptime14 (MText ("D:" +:+ s)) = strptime14 s /\
  (String.prefix "D:" s = false ->
   clean_pdf_date datetime strptime14 (MText s) = strptime14 s) /\
  (forall cls, clean_pdf_date datetime strptime14 (MObject cls) = None).
Proof.
  split; [|split; [|done]].
  - unfold clean_pdf_date. by rewrite drop_date_prefix_once.
  - intros Hp. unfold clean_pdf_date, drop_date_prefix. by rewrite Hp.
Qed.

(** X18: a file without metadata, none or an empty dictionary, is
    reported as not edited, with no reason, empty dates and fields and
    "{}" as full metadata; neither JSON nor the date parser is consulted. *)
Theorem no_metadata_is_unedited (file_path : string) (meta : metadata) :
  read_metadata file_path = inr meta ->
  truthy meta = false ->
  analyze_pdf datetime basename read_metadata json_dumps strptime14 strftime
    datetime_gt file_path
  = inr {| File_Name := basename file_path;
           Edited := Some false;
           Reasons := "";
           Creation_Date := "";
           Modification_Date := "";
           Producer := MText "";
           Creator := MText "";
           Title := MText "";
           Full_Metadata := "{}" |}.
Proof.
  intros Hread Hmeta. unfold analyze_pdf, try_except, analyze_body.
  rewrite Hread. destruct meta as [m|]; [|reflexivity].
  cbn [scan_keys]. unfold meta_get. rewrite !Hmeta. reflexivity.
Qed.

(** X19: when the analysis raises nothing, [Edited] is [True] exactly
    when one of the two checks fires: the modification date is later than
    the creation date, or the cleaned producer, creator or title mentions
    a keyword, whatever the case of the letters. *)
Theorem edited_exactly_on_a_trigger (file_path : string) (meta : metadata) (r : result) :
  read_metadata file_path = inr meta ->
  analyze_body datetime basename read_metadata json_dumps strptime14 strftime
    datetime_gt file_path = inr r ->
  Edited r
  = Some (modified_later datetime strptime14 datetime_gt meta
          || keyword_in meta "/Producer" || keyword_in meta "/Creator"
          || keyword_in meta "/Title").
Proof.
  intros Hread. unfold analyze_body. rewrite Hread.
  destruct (match meta with
            | Some m => if truthy meta then json_dumps m else inr "{}"
            | None => inr "{}"
            end) as [err|full]; [done|].
  match goal with
  | |- context [scan_keys meta ?keys ?acc] =>
      destruct (scan_keys meta keys acc) as [err|[e rs]] eqn:Hscan; [done|]
  end.
  intros [= <-]. simpl. f_equal.
  apply scan_keys_edited in Hscan as ->. simpl fst.
  unfold modified_later. simpl existsb. rewrite orb_false_r, !orb_assoc.
  by destruct (truthy meta).
Qed.

(** X20: whatever the file, the reasons of the result are empty exactly
    when [Edited] is [False]: an edited file comes with at least one
    reason, and a failure with its error message. *)
Theorem reasons_empty_iff_unedited (file_path : string) :
  exists r,
    analyze_pdf datetime basename read_metadata json_dumps strptime14 strftime
      datetime_gt file_path = inr r /\
    (Reasons r = "" <-> Edited r = Some false).
Proof.
  unfold analyze_pdf, try_except.
  destruct (analyze_body _ _ _ _ _ _ _ file_path) as [err|r] eqn:Hbody.
  - eexists. split; [done|]. simpl. split; discriminate.
  - exists r. split; [done|]. revert Hbody. unfold analyze_body.
    destruct (read_metadata file_path) as [err|meta]; [done|].
    destruct (match meta with
              | Some m => if truthy meta then json_dumps m else inr "{}"
              | None => inr "{}"
              end) as [err|full]; [done|].
    match goal with
    | |- context [scan_keys meta ?keys ?acc] =>
        destruct (scan_keys meta keys acc) as [err|[e rs]] eqn:Hscan; [done|]
    end.
    intros [= <-]. simpl.
    apply scan_keys_reasons in Hscan as [Hiff Hall].
    + split.
      * intros Hj. apply join_empty in Hj; [|done]. f_equal. by apply Hiff.
      * intros [= He]. apply Hiff in He as ->. done.
    + simpl. match goal with |- context [if ?b then _ else _] => by destruct b end.
    + simpl. match goal with |- context [if ?b then _ else _] => destruct b end;
        repeat constructor. discriminate.
Qed.

(** X21: when the producer, the creator or the title of the metadata is
    an object that is not a text, the analysis fails inside and the
    result is the record of a failure: [Edited] is [None] and the other
    fields are at their defaults. *)
Theorem non_text_field_gives_error
    (file_path key cls : string) (m : gmap string meta_value) :
  read_metadata file_path = inr (Some m) ->
  key ∈ ["/Producer"; "/Creator"; "/Title"] ->
  m !! key = Some (MObject cls) ->
  exists r e,
    analyze_pdf datetime basename read_metadata json_dumps strptime14 strftime
      datetime_gt file_path = inr r /\
    r = error_result basename file_path e /\
    Edited r = None.
Proof.
  intros Hread Hkey Hm.
  assert (truthy (Some m) = true) as Htruthy.
  { simpl. apply negb_true_iff, bool_decide_eq_false.
    intros ->. by rewrite lookup_empty in Hm. }
  assert (exists e, analyze_body datetime basename read_metadata json_dumps
                      strptime14 strftime datetime_gt file_path = inl e)
    as [e Hbody].
  { unfold analyze_body. rewrite Hread, Htruthy.
    destruct (json_dumps m) as [err|full]; [by eexists|].
    assert (forall acc keys, key ∈ keys ->
              exists e, scan_keys (Some m) keys acc = inl e) as Hscan.
    { intros acc keys. revert acc.
      induction keys as [|k keys IH]; intros acc Hin.
      - by apply not_elem_of_nil in Hin.
      - cbn [scan_keys]. destruct (decide (k = key)) as [->|Hne].
        + unfold meta_get at 1. rewrite Htruthy, Hm. simpl. by eexists.
        + apply elem_of_cons in Hin as [->|Hin]; [done|].
          destruct (remove_non_ascii (meta_get (Some m) k)); [by eexists|].
          by apply IH. }
    match goal with
    | |- context [scan_keys (Some m) ?keys ?acc] =>
        destruct (Hscan acc keys Hkey) as [e ->]
    end.
    by eexists. }
  unfold analyze_pdf, try_except. rewrite Hbody. by do 2 eexists.
Qed.

End AnalysisFacts.

Lemma no_metadata_is_unedited_witness :
  analyze_with None "uploads/scan.pdf"
  = inr {| File_Name := "scan.pdf";
           Edited := Some false;
           Reasons := "";
           Creation_Date := "";
           Modification_Date := "";
           Producer := MText "";
           Creator := MText "";
           Title := MText "";
           Full_Metadata := "{}" |}.
Proof.
  apply (no_metadata_is_unedited string posix_basename (fun _ => inr None)
           (fun _ => inr "{}") digits14 dashed digits_gt "uploads/scan.pdf" None).
  - reflexivity.
  - reflexivity.
Defined.

Lemma edited_exactly_on_a_trigger_witness :
  exists r,
    analyze_body_with exported_metadata "uploads/report.pdf" = inr r /\
    Edited r
    = Some (modified_later string digits14 digits_gt exported_metadata
            || keyword_in exported_metadata "/Producer"
            || keyword_in exported_metadata "/Creator"
            || keyword_in exported_metadata "/Title").
Proof.
  eexists. split; [vm_compute; reflexivity|].
  apply (edited_exactly_on_a_trigger string posix_basename
           (fun _ => inr exported_metadata) (fun _ => inr "{}") digits14 dashed
           digits_gt "uploads/report.pdf" exported_metadata).
  - reflexivity.
  - vm_compute. reflexivity.
Defined.

Lemma non_text_field_gives_error_witness :
  exists r e,
    analyze_with binary_metadata "uploads/report.pdf" = inr r /\
    r = error_result posix_basename "uploads/report.pdf" e /\
    Edited r = None.
Proof.
  apply (non_text_field_gives_error string posix_basename
           (fun _ => inr binary_metadata) (fun _ => inr "{}") digits14 dashed
           digits_gt "uploads/report.pdf" "/Producer" "ByteStringObject"
           {[ "/Producer" := MObject "ByteStringObject" ]}).
  - reflexivity.
  - constructor.
  - vm_compute. reflexivity.
Defined.
